(** * The YOLOv3 example driver: annotation parser and run sequencing

    A shallow embedding of [example/yolo-v3/main.go]: the annotation-folder
    parser [parseFolder] and the control flow of [main] (model construction,
    detector path, training loop).

    Go strings are byte strings: they are [string] here (a sequence of
    [ascii] bytes).  The Go [error] interface is used by the driver only
    through [err.Error()], so an error is its message.  The tensor library,
    the file system and [strconv.ParseFloat] are collaborators of the driver:
    their answers are the fields of a record [World], and every theorem is
    stated for an arbitrary world. *)

From Stdlib Require Import ZArith QArith Ascii String List Lia.
From stdpp Require Import gmap strings list sorting.

(** ** Go values *)

Definition error := string.

Inductive result (A : Type) : Type :=
| Ok (a : A)
| Err (e : error).
Arguments Ok {A} a.
Arguments Err {A} e.

(** The bytes the driver names. *)
Definition byte_nl : ascii := "010"%char.
Definition byte_tab : ascii := "009"%char.
Definition byte_sp : ascii := " "%char.
Definition byte_dot : ascii := "."%char.
Definition byte_slash : ascii := "/"%char.

Definition byte_val (c : ascii) : Z := Z.of_N (N_of_ascii c).
Definition byte_at (p : list ascii) (i : nat) : Z := byte_val (nth i p "000"%char).

(** ** Package [unicode/utf8] *)

Definition RuneError : Z := 0xFFFD.
Definition RuneSelf : Z := 0x80.
Definition UTFMax : nat := 4.

Definition maskx : Z := 0x3F.
Definition mask2 : Z := 0x1F.
Definition mask3 : Z := 0x0F.
Definition mask4 : Z := 0x07.
Definition locb : Z := 0x80.
Definition hicb : Z := 0xBF.

(** Entries of the table [first]: the low nibble is the size of the
    sequence, the high nibble an index into [acceptRanges]. *)
Definition t_xx : Z := 0xF1.
Definition t_as : Z := 0xF0.
Definition t_s1 : Z := 0x02.
Definition t_s2 : Z := 0x13.
Definition t_s3 : Z := 0x03.
Definition t_s4 : Z := 0x23.
Definition t_s5 : Z := 0x34.
Definition t_s6 : Z := 0x04.
Definition t_s7 : Z := 0x44.

Definition utf8_first (b : Z) : Z :=
  if (b <? 0x80)%Z then t_as
  else if (b <? 0xC2)%Z then t_xx
  else if (b <? 0xE0)%Z then t_s1
  else if (b =? 0xE0)%Z then t_s2
  else if (b <? 0xED)%Z then t_s3
  else if (b =? 0xED)%Z then t_s4
  else if (b <? 0xF0)%Z then t_s3
  else if (b =? 0xF0)%Z then t_s5
  else if (b <? 0xF4)%Z then t_s6
  else if (b =? 0xF4)%Z then t_s7
  else t_xx.

Definition acceptRanges (i : Z) : Z * Z :=
  if (i =? 0)%Z then (locb, hicb)
  else if (i =? 1)%Z then (0xA0, hicb)%Z
  else if (i =? 2)%Z then (locb, 0x9F)%Z
  else if (i =? 3)%Z then (0x90, hicb)%Z
  else if (i =? 4)%Z then (locb, 0x8F)%Z
  else (0, 0)%Z.

(** [utf8.DecodeRuneInString]: the first rune of [p] and its width in
    bytes; [(RuneError, 1)] on an invalid sequence. *)
Definition utf8_DecodeRune (p : list ascii) : Z * nat :=
  match p with
  | [] => (RuneError, 0)
  | c0 :: _ =>
    let n := length p in
    let s0 := byte_val c0 in
    let x := utf8_first s0 in
    if (t_as <=? x)%Z then
      ((if (x =? t_as)%Z then s0 else RuneError), 1)
    else
      let sz := Z.to_nat (Z.land x 7) in
      let accept := acceptRanges (Z.shiftr x 4) in
      if n <? sz then (RuneError, 1) else
      let s1 := byte_at p 1 in
      if ((s1 <? fst accept) || (snd accept <? s1))%Z then (RuneError, 1) else
      if sz <=? 2 then
        (Z.lor (Z.shiftl (Z.land s0 mask2) 6) (Z.land s1 maskx), 2)
      else
      let s2 := byte_at p 2 in
      if ((s2 <? locb) || (hicb <? s2))%Z then (RuneError, 1) else
      if sz <=? 3 then
        (Z.lor (Z.lor (Z.shiftl (Z.land s0 mask3) 12)
                      (Z.shiftl (Z.land s1 maskx) 6))
               (Z.land s2 maskx), 3)
      else
      let s3 := byte_at p 3 in
      if ((s3 <? locb) || (hicb <? s3))%Z then (RuneError, 1) else
        (Z.lor (Z.lor (Z.lor (Z.shiftl (Z.land s0 mask4) 18)
                             (Z.shiftl (Z.land s1 maskx) 12))
                      (Z.shiftl (Z.land s2 maskx) 6))
               (Z.land s3 maskx), 4)
  end.

(** [utf8.RuneStart]: the byte is not a continuation byte. *)
Definition utf8_RuneStart (b : Z) : bool :=
  negb (Z.land b 0xC0 =? 0x80)%Z.

(** The backward scan of [utf8.DecodeLastRuneInString]: [start] runs from
    [lim + k - 1] down to [lim] and stops at a rune start; [lim - 1] when
    there is none. *)
Fixpoint last_rune_start (p : list ascii) (lim k : nat) : Z :=
  match k with
  | O => Z.of_nat lim - 1
  | S k' =>
    if utf8_RuneStart (byte_at p (lim + k')) then Z.of_nat (lim + k')
    else last_rune_start p lim k'
  end.

(** [utf8.DecodeLastRuneInString]. *)
Definition utf8_DecodeLastRune (p : list ascii) : Z * nat :=
  let end_ := length p in
  match end_ with
  | O => (RuneError, 0)
  | S start0 =>
    let r := byte_at p start0 in
    if (r <? RuneSelf)%Z then (r, 1)
    else
      let lim := end_ - UTFMax in
      let start := Z.to_nat (Z.max 0 (last_rune_start p lim (start0 - lim))) in
      let '(r', size) := utf8_DecodeRune (drop start p) in
      if start + size =? end_ then (r', size) else (RuneError, 1)
  end.

(** [utf8.AppendRune], for the code points below [0x10000] that are not
    surrogates (the only ones the white-space table holds). *)
Definition utf8_EncodeRune (r : Z) : list ascii :=
  let b (z : Z) := ascii_of_N (Z.to_N z) in
  if (r <? 0x80)%Z then [b r]
  else if (r <? 0x800)%Z then
    [b (Z.lor 0xC0 (Z.shiftr r 6)); b (Z.lor 0x80 (Z.land r maskx))]
  else
    [b (Z.lor 0xE0 (Z.shiftr r 12));
     b (Z.lor 0x80 (Z.land (Z.shiftr r 6) maskx));
     b (Z.lor 0x80 (Z.land r maskx))].

(** ** Package [unicode] *)

(** [unicode.IsSpace]: the Latin-1 cases of the switch, then the table
    [White_Space]. *)
Definition unicode_IsSpace (r : Z) : bool :=
  if (r <=? 0xFF)%Z then
    ((0x09 <=? r) && (r <=? 0x0D) || (r =? 0x20) || (r =? 0x85) || (r =? 0xA0))%Z
  else
    ((r =? 0x1680) || (0x2000 <=? r) && (r <=? 0x200A) || (r =? 0x2028)
     || (r =? 0x2029) || (r =? 0x202F) || (r =? 0x205F) || (r =? 0x3000))%Z.

(** ** Package [strings] *)

(** [indexFunc]: the byte index of the first rune [r] with [f r = truth],
    [-1] when there is none.  The range loop advances by the width of the
    decoded rune: [skip] counts the bytes of the current rune still to pass,
    and [i] is the byte index of the head of [p]. *)
Fixpoint indexFunc_from (f : Z -> bool) (truth : bool) (p : list ascii)
    (i skip : nat) : Z :=
  match p with
  | [] => (-1)%Z
  | _ :: p' =>
    match skip with
    | S k => indexFunc_from f truth p' (S i) k
    | O =>
      let '(r, size) := utf8_DecodeRune p in
      if Bool.eqb (f r) truth then Z.of_nat i
      else indexFunc_from f truth p' (S i) (size - 1)
    end
  end.

Definition indexFunc (p : list ascii) (f : Z -> bool) (truth : bool) : Z :=
  indexFunc_from f truth p 0 0.

(** [lastIndexFunc]: the loop [for i := len(s); i > 0;] that decodes the
    last rune of [s[0:i]] and steps back by its width. *)
Fixpoint lastIndexFunc_from (f : Z -> bool) (truth : bool) (p : list ascii)
    (i skip : nat) : Z :=
  match i with
  | O => (-1)%Z
  | S i' =>
    match skip with
    | S k => lastIndexFunc_from f truth p i' k
    | O =>
      let '(r, size) := utf8_DecodeLastRune (take i p) in
      if Bool.eqb (f r) truth then Z.of_nat (i - size)
      else lastIndexFunc_from f truth p i' (size - 1)
    end
  end.

Definition lastIndexFunc (p : list ascii) (f : Z -> bool) (truth : bool) : Z :=
  lastIndexFunc_from f truth p (length p) 0.

Definition TrimLeftFunc (p : list ascii) (f : Z -> bool) : list ascii :=
  let i := indexFunc p f false in
  if (i =? -1)%Z then [] else drop (Z.to_nat i) p.

Definition TrimRightFunc (p : list ascii) (f : Z -> bool) : list ascii :=
  let i := lastIndexFunc p f false in
  let i' :=
    if ((0 <=? i) && (RuneSelf <=? byte_at p (Z.to_nat i)))%Z then
      (i + Z.of_nat (snd (utf8_DecodeRune (drop (Z.to_nat i) p))))%Z
    else (i + 1)%Z in
  take (Z.to_nat i') p.

Definition TrimFunc (p : list ascii) (f : Z -> bool) : list ascii :=
  TrimRightFunc (TrimLeftFunc p f) f.

(** [strings.TrimSpace]: leading and trailing white space, as Unicode
    defines it, removed.  (The Go function walks ASCII bytes itself and
    hands over to [TrimFunc] at the first byte above [RuneSelf]; the result
    is that of [TrimFunc s unicode.IsSpace].) *)
Definition strings_TrimSpace (s : string) : string :=
  string_of_list_ascii (TrimFunc (list_ascii_of_string s) unicode_IsSpace).

(** [strings.Split s sep] and [strings.ReplaceAll s old new] at the
    one-byte separators the driver passes. *)
Fixpoint strings_Split (s : string) (sep : ascii) : list string :=
  match s with
  | EmptyString => [EmptyString]
  | String c s' =>
    if Ascii.eqb c sep then EmptyString :: strings_Split s' sep
    else match strings_Split s' sep with
         | h :: t => String c h :: t
         | [] => [String c EmptyString]
         end
  end.

Fixpoint strings_ReplaceAll (s : string) (old new : ascii) : string :=
  match s with
  | EmptyString => EmptyString
  | String c s' =>
    String (if Ascii.eqb c old then new else c) (strings_ReplaceAll s' old new)
  end.

(** The ASCII path of [strings.ToLower]; a string with a byte above
    [RuneSelf] goes through the Unicode case tables, which the world
    supplies (see [unicode_lower] below). *)
Definition is_ascii_string (s : string) : bool :=
  forallb (fun c => (byte_val c <? RuneSelf)%Z) (list_ascii_of_string s).

Definition lower_byte (c : ascii) : ascii :=
  let v := byte_val c in
  if ((65 <=? v) && (v <=? 90))%Z then ascii_of_N (Z.to_N (v + 32)) else c.

Fixpoint lower_bytes (s : string) : string :=
  match s with
  | EmptyString => EmptyString
  | String c s' => String (lower_byte c) (lower_bytes s')
  end.

(** ** Package [path/filepath] *)

(** The loop of [filepath.Ext], [i] running from [k - 1] down to [0]. *)
Fixpoint Ext_loop (path : list ascii) (k : nat) : list ascii :=
  match k with
  | O => []
  | S i =>
    let c := nth i path "000"%char in
    if Ascii.eqb c byte_slash then []
    else if Ascii.eqb c byte_dot then drop i path
    else Ext_loop path i
  end.

Definition filepath_Ext (path : string) : string :=
  let p := list_ascii_of_string path in
  string_of_list_ascii (Ext_loop p (length p)).

(** ** The collaborators of the driver *)

(** What the driver reads of an [os.FileInfo]. *)
Record FileInfo : Type := { Name : string; IsDir : bool }.

(** A detection, as the driver receives it: it is printed and nothing
    else. *)
Record Detection : Type := {
  det_class : string;
  det_score : Q;
  det_box : Z * Z * Z * Z
}.

(** ** Package-level variables of [main.go] *)

Definition imgWidth : Z := 416.
Definition imgHeight : Z := 416.
Definition channels : Z := 3.
Definition boxes : Z := 3.
Definition leakyCoef : Q := 1 # 10.

Definition cocoClasses : list string :=
  ["person"; "bicycle"; "car"; "motorbike"; "aeroplane"; "bus"; "train";
   "truck"; "boat"; "traffic light"; "fire hydrant"; "stop sign";
   "parking meter"; "bench"; "bird"; "cat"; "dog"; "horse"; "sheep"; "cow";
   "elephant"; "bear"; "zebra"; "giraffe"; "backpack"; "umbrella"; "handbag";
   "tie"; "suitcase"; "frisbee"; "skis"; "snowboard"; "sports ball"; "kite";
   "baseball bat"; "baseball glove"; "skateboard"; "surfboard";
   "tennis racket"; "bottle"; "wine glass"; "cup"; "fork"; "knife"; "spoon";
   "bowl"; "banana"; "apple"; "sandwich"; "orange"; "broccoli"; "carrot";
   "hot dog"; "pizza"; "donut"; "cake"; "chair"; "sofa"; "pottedplant"; "bed";
   "diningtable"; "toilet"; "tvmonitor"; "laptop"; "mouse"; "remote";
   "keyboard"; "cell phone"; "microwave"; "oven"; "toaster"; "sink";
   "refrigerator"; "book"; "clock"; "vase"; "scissors"; "teddy bear";
   "hair drier"; "toothbrush"].

Definition scoreThreshold : Q := 8 # 10.
Definition iouThreshold : Q := 3 # 10.

(** The learning rates of the three [NewRMSPropSolver] calls. *)
Definition rate_initial : Q := 1 # 100000.
Definition rate_after_15 : Q := 1 # 1000000.
Definition rate_after_150 : Q := 1 # 10000000.

(** The parsed command line. *)
Record Flags : Type := {
  modeStr : string;
  weights : string;
  cfg : string;
  imagePath : string;
  trainingFolder : string
}.

(** The format strings of the messages. *)
Definition nl : string := String byte_nl EmptyString.

Definition fmt_prepare : string :=
  "Can't prepare tiny-YOLOv3 network due the error: %s" +:+ nl.
Definition fmt_image : string :=
  "Can't read []float32 from image due the error: %s" +:+ nl.
Definition fmt_let : string :=
  "Can't let input = []float32 due the error: %s" +:+ nl.
Definition fmt_run : string :=
  "Can't run tape machine due the error: %s" +:+ nl.
Definition fmt_postprocess : string :=
  "Can't do postprocessing due error: %s".
Definition fmt_labeled : string :=
  "Can't prepare labeled data due the error: %s" +:+ nl.
Definition fmt_activate : string :=
  "Can't activate training mode due the error: %s" +:+ nl.
Definition fmt_concat : string :=
  "Can't concatenate YOLO layers outputs in Training mode due the error: %s" +:+ nl.
Definition fmt_costs : string :=
  "Can't evaluate costs in Training mode due the error: %s" +:+ nl.
Definition fmt_grad : string :=
  "Can't evaluate gradients in Training mode due the error: %s" +:+ nl.
Definition fmt_compile : string :=
  "Can't compile graph in Training mode due the error: %s" +:+ nl.
Definition fmt_target : string :=
  "Can't set []float32 as target due the error: %s" +:+ nl.
Definition fmt_step : string :=
  "Can't do solver.Step() in Training mode due the error: %s" +:+ nl.
Definition fmt_mode : string := "Mode '%s' is not implemented".
Definition fmt_iteration : string :=
  "Training iteration #%d done in: %v" +:+ nl.
Definition fmt_current_costs : string :=
  String byte_tab "Current costs are: %v" +:+ nl.

(** The formats under which the driver reports a failure. *)
Definition error_formats : list string :=
  [fmt_prepare; fmt_image; fmt_let; fmt_run; fmt_postprocess; fmt_labeled;
   fmt_activate; fmt_concat; fmt_costs; fmt_grad; fmt_compile; fmt_target;
   fmt_step; fmt_mode].

Section Driver.
Context {float64 float32 : Type}.

(** The answers of the collaborators.  A call made once per sample of the
    training loop takes the iteration counter as its last argument, so
    that its answer may change from one sample to the next; the detector
    path passes [0]. *)
Record World : Type := {
  strconv_ParseFloat : string -> Z -> result float64;
  float32_of : float64 -> float32;
  unicode_lower : string -> string;
  ioutil_ReadDir : string -> result (list FileInfo);
  ioutil_ReadFile : string -> result string;
  range_keys : gmap string (list float32) -> list string;
  yologo_NewYoloV3 : Z -> Z -> Q -> string -> string -> option error;
  yologo_GetFloat32Image : string -> Z -> Z -> result (list float32);
  gorgonia_Let : list float32 -> nat -> option error;
  tm_RunAll : nat -> option error;
  model_ProcessOutput : list string -> Q -> Q -> result (list Detection);
  model_ActivateTrainingMode : option error;
  gorgonia_Concat : option error;
  gorgonia_Sum : option error;
  gorgonia_Grad : option error;
  gorgonia_Compile : option error;
  model_SetTarget : list float32 -> nat -> option error;
  solver_Step : Q -> nat -> option error
}.

Variable W : World.

(** [strings.ToLower]. *)
Definition strings_ToLower (s : string) : string :=
  if is_ascii_string s then lower_bytes s else unicode_lower W s.

(** *** [parseFolder] *)

(** The loop [for j := range fileContentAsArray]. *)
Fixpoint parse_entities (fileContentAsArray : list string)
    (sliceOfF32 : list float32) : result (list float32) :=
  match fileContentAsArray with
  | [] => Ok sliceOfF32
  | x :: rest =>
    let entity := strings_TrimSpace x in
    if decide (entity = EmptyString) then parse_entities rest sliceOfF32
    else
      match strconv_ParseFloat W entity 32 with
      | Err err => Err err
      | Ok entityF32 =>
        parse_entities rest (sliceOfF32 ++ [float32_of W entityF32])
      end
  end.

Definition is_annotation (fileInfo : FileInfo) : bool :=
  negb (IsDir fileInfo || negb (String.eqb (filepath_Ext (Name fileInfo)) ".txt")).

Definition target_key (name : string) : string :=
  hd EmptyString (strings_Split name byte_dot).

Definition file_path (dir name : string) : string :=
  dir +:+ "/" +:+ name.

Definition file_entities (fileBytes : string) : list string :=
  strings_Split (strings_ReplaceAll fileBytes byte_nl byte_sp) byte_sp.

(** The loop [for i := range filesInfo]. *)
Fixpoint parse_files (dir : string) (filesInfo : list FileInfo)
    (targets : gmap string (list float32)) : result (gmap string (list float32)) :=
  match filesInfo with
  | [] => Ok targets
  | fileInfo :: rest =>
    if IsDir fileInfo || negb (String.eqb (filepath_Ext (Name fileInfo)) ".txt")
    then parse_files dir rest targets
    else
      let filePath := file_path dir (Name fileInfo) in
      match ioutil_ReadFile W filePath with
      | Err err => Err err
      | Ok fileBytes =>
        match parse_entities (file_entities fileBytes) [] with
        | Err err => Err err
        | Ok sliceOfF32 =>
          parse_files dir rest
            (<[target_key (Name fileInfo) := sliceOfF32]> targets)
        end
      end
  end.

Definition no_annotations (dir : string) : error :=
  "Folder '" +:+ dir +:+
  "' doesn't contain any *.txt files (annotation files for YOLO)".

(** The pair [(map, error)] that [parseFolder] returns; [None] is [nil]. *)
Definition parseFolder (dir : string)
    : option (gmap string (list float32)) * option error :=
  match ioutil_ReadDir W dir with
  | Err err => (None, Some err)
  | Ok filesInfo =>
    match parse_files dir filesInfo ∅ with
    | Err err => (None, Some err)
    | Ok targets =>
      if size targets =? 0 then (None, Some (no_annotations dir))
      else (Some targets, None)
    end
  end.

(** *** What a run does *)

(** The calls the driver makes into its collaborators, with the arguments
    it passes. *)
Inductive call : Type :=
| C_NewGraph
| C_NewTensor (shape : list Z) (name : string)
| C_NewYoloV3 (classes boxes : Z) (leaky : Q) (cfg weights : string)
| C_Print
| C_GetFloat32Image (path : string) (height width : Z)
| C_tensor_New (shape : list Z) (backing : list float32)
| C_Let (image : list float32)
| C_NewTapeMachine
| C_RunAll
| C_Reset
| C_Close
| C_ProcessOutput (classes : list string) (score iou : Q)
| C_ActivateTrainingMode
| C_NewRMSPropSolver (rate : Q)
| C_GetOutput
| C_Concat
| C_Sum
| C_Grad
| C_Compile
| C_SetTarget (target : list float32)
| C_Step (rate : Q).

(** An argument of a print: a string, an integer, an elapsed time, the
    value of the cost node or a detection. *)
Inductive value : Type :=
| VStr (s : string)
| VInt (n : Z)
| VElapsed
| VCosts
| VDet (d : Detection).

Inductive event : Type :=
| Call (c : call)
| Printf (format : string) (args : list value)
| Println (args : list value).

(** A piece of [main]: the events it produces, and its value, or [None]
    when it has executed [return]. *)
Definition M (A : Type) : Type := list event * option A.

Definition M_ret {A} (a : A) : M A := ([], Some a).

Definition M_bind {A B} (f : A -> M B) (m : M A) : M B :=
  match m with
  | (t, Some a) => let r := f a in (t ++ fst r, snd r)
  | (t, None) => (t, None)
  end.

Global Instance M_mret : MRet M := @M_ret.
Global Instance M_mbind : MBind M := @M_bind.

Definition emit (e : event) : M unit := ([e], Some tt).
Definition do_call (c : call) : M unit := emit (Call c).
Definition return_ {A} : M A := ([], None).

(** [err := f(...); if err != nil { fmt.Printf(format, err.Error()); return }] *)
Definition check (c : call) (err : option error) (format : string) : M unit :=
  do_call c;;
  match err with
  | Some e => emit (Printf format [VStr e]);; return_
  | None => mret tt
  end.

(** The same with a value next to the error. *)
Definition check_val {A} (c : call) (r : result A) (format : string) : M A :=
  do_call c;;
  match r with
  | Err e => emit (Printf format [VStr e]);; return_
  | Ok a => mret a
  end.

(** [defer f()] in front of [body]: the call runs when [main] returns,
    however [body] ends. *)
Definition defer {A} (c : call) (body : M A) : M A :=
  (fst body ++ [Call c], snd body).

(** [for i := range dets { fmt.Println(dets[i]) }] *)
Definition print_dets (dets : list Detection) : M unit :=
  (map (fun d => Println [VDet d]) dets, Some tt).

Variable fl : Flags.

(** The case ["detector"] of the switch. *)
Definition detector : M unit :=
  imgf32 ← check_val (C_GetFloat32Image (imagePath fl) imgHeight imgWidth)
             (yologo_GetFloat32Image W (imagePath fl) imgHeight imgWidth)
             fmt_image;
  do_call (C_tensor_New [1; channels; imgHeight; imgWidth]%Z imgf32);;
  check (C_Let imgf32) (gorgonia_Let W imgf32 0) fmt_let;;
  do_call C_NewTapeMachine;;
  defer C_Close (
    check C_RunAll (tm_RunAll W 0) fmt_run;;
    emit (Println [VStr "Feedforwarded in:"; VElapsed]);;
    do_call C_Reset;;
    dets ← check_val (C_ProcessOutput cocoClasses scoreThreshold iouThreshold)
             (model_ProcessOutput W cocoClasses scoreThreshold iouThreshold)
             fmt_postprocess;
    emit (Println [VStr "Postprocessed in:"; VElapsed]);;
    emit (Println [VStr "Detections:"]);;
    print_dets dets).

(** [labeledData[i]]: the zero value (a nil slice) for an absent key. *)
Definition index_map (labeledData : gmap string (list float32)) (i : string)
    : list float32 :=
  default [] (labeledData !! i).

Definition image_of_key (i : string) : string :=
  trainingFolder fl +:+ "/" +:+ i +:+ ".jpg".

(** The two [if iter == ...] statements: the solver after them, and the
    constructor calls they make. *)
Definition reschedule (solver : Q) (iter : nat) : M Q :=
  solver ← (if iter =? 15
            then do_call (C_NewRMSPropSolver rate_after_15);; mret rate_after_15
            else mret solver);
  if iter =? 150
  then do_call (C_NewRMSPropSolver rate_after_150);; mret rate_after_150
  else mret solver.

(** The body of the loop [for i := range labeledData] at the key [i]:
    the state of the loop is the solver (its learning rate) and [iter];
    the body hands the solver on to the next sample. *)
Definition train_body (labeledData : gmap string (list float32))
    (i : string) (solver : Q) (iter : nat) : M Q :=
  imgf32 ← check_val (C_GetFloat32Image (image_of_key i) imgHeight imgWidth)
             (yologo_GetFloat32Image W (image_of_key i) imgHeight imgWidth)
             fmt_image;
  check (C_SetTarget (index_map labeledData i))
    (model_SetTarget W (index_map labeledData i) iter) fmt_target;;
  do_call (C_tensor_New [1; channels; imgHeight; imgWidth]%Z imgf32);;
  check (C_Let imgf32) (gorgonia_Let W imgf32 iter) fmt_let;;
  check C_RunAll (tm_RunAll W iter) fmt_run;;
  solver ← reschedule solver iter;
  emit (Printf fmt_iteration [VInt (Z.of_nat iter); VElapsed]);;
  emit (Printf fmt_current_costs [VCosts]);;
  do_call (C_Step solver);;
  match solver_Step W solver iter with
  | Some e => emit (Printf fmt_step [VStr e])
  | None => mret tt
  end;;
  do_call C_Reset;;
  mret solver.

(** The loop, over the keys in the order in which the range statement
    yields them; [iter++] closes the body. *)
Fixpoint train_loop (labeledData : gmap string (list float32))
    (keys : list string) (solver : Q) (iter : nat) : M unit :=
  match keys with
  | [] => mret tt
  | i :: keys' =>
    solver ← train_body labeledData i solver iter;
    train_loop labeledData keys' solver (S iter)
  end.

(** The case ["training"] of the switch. *)
Definition training : M unit :=
  labeledData ←
    match parseFolder (trainingFolder fl) with
    | (_, Some e) => emit (Printf fmt_labeled [VStr e]);; return_
    | (Some targets, None) => mret targets
    | (None, None) => mret ∅
    end;
  check C_ActivateTrainingMode (model_ActivateTrainingMode W) fmt_activate;;
  do_call (C_NewRMSPropSolver rate_initial);;
  do_call C_GetOutput;;
  check C_Concat (gorgonia_Concat W) fmt_concat;;
  check C_Sum (gorgonia_Sum W) fmt_costs;;
  check C_Grad (gorgonia_Grad W) fmt_grad;;
  check C_Compile (gorgonia_Compile W) fmt_compile;;
  do_call C_NewTapeMachine;;
  defer C_Close
    (train_loop labeledData (range_keys W labeledData) rate_initial 0).

(** [main], after [flag.Parse()]. *)
Definition main : M unit :=
  do_call C_NewGraph;;
  do_call (C_NewTensor [1; channels; imgWidth; imgHeight]%Z "input");;
  check (C_NewYoloV3 (Z.of_nat (length cocoClasses)) boxes leakyCoef (cfg fl) (weights fl))
    (yologo_NewYoloV3 W (Z.of_nat (length cocoClasses)) boxes leakyCoef (cfg fl) (weights fl))
    fmt_prepare;;
  do_call C_Print;;
  let mode := strings_ToLower (modeStr fl) in
  if decide (mode = "detector") then detector
  else if decide (mode = "training") then training
  else emit (Printf fmt_mode [VStr (modeStr fl)]);; return_.
End Driver.

Arguments World : clear implicits.
Arguments M : clear implicits.

(** ** What the specification says, in its own words *)

(** The name of a file "truncated at the first dot". *)
Fixpoint stem (name : string) : string :=
  match name with
  | EmptyString => EmptyString
  | String c rest => if Ascii.eqb c byte_dot then EmptyString else String c (stem rest)
  end.

(** "Split on whitespace (including newlines), discard empty tokens": the
    maximal runs of bytes that are not ASCII white space. *)
Definition is_space_byte (c : ascii) : bool :=
  let v := byte_val c in ((9 <=? v) && (v <=? 13) || (v =? 32))%Z.

Fixpoint fields_from (s : string) (cur : string) : list string :=
  match s with
  | EmptyString => if decide (cur = EmptyString) then [] else [cur]
  | String c rest =>
    if is_space_byte c
    then (if decide (cur = EmptyString) then [] else [cur]) ++ fields_from rest EmptyString
    else fields_from rest (cur +:+ String c EmptyString)
  end.

Definition spec_fields (content : string) : list string :=
  fields_from content EmptyString.

(** A byte of a plain content: ASCII, and a space or a newline when it is
    white space. *)
Definition plain_byte (c : ascii) : bool :=
  (byte_val c <? RuneSelf)%Z &&
  (negb (is_space_byte c) || Ascii.eqb c byte_sp || Ascii.eqb c byte_nl).

Definition plain (content : string) : bool :=
  forallb plain_byte (list_ascii_of_string content).

(** A byte of a token of a plain content. *)
Definition solid_byte (c : ascii) : bool :=
  (byte_val c <? RuneSelf)%Z && negb (is_space_byte c).

Definition solid (x : string) : bool :=
  forallb solid_byte (list_ascii_of_string x).

Definition nonempty (l : list string) : list string :=
  filter (fun x => x ≠ EmptyString) l.

(** A content that "consists only of whitespace": a sequence of UTF-8
    encoded white-space code points. *)
Inductive space_only : string -> Prop :=
| space_only_nil : space_only EmptyString
| space_only_rune (r : Z) (s : string) :
    unicode_IsSpace r = true -> space_only s ->
    space_only (string_of_list_ascii (utf8_EncodeRune r) +:+ s).

(** The white-space code points, and the encodings that hold neither of
    the two bytes at which the parser cuts. *)
Definition space_runes : list Z :=
  [0x09; 0x0A; 0x0B; 0x0C; 0x0D; 0x20; 0x85; 0xA0; 0x1680;
   0x2000; 0x2001; 0x2002; 0x2003; 0x2004; 0x2005; 0x2006; 0x2007; 0x2008;
   0x2009; 0x200A; 0x2028; 0x2029; 0x202F; 0x205F; 0x3000]%Z.

Definition no_separator (e : list ascii) : bool :=
  forallb (fun c => negb (Ascii.eqb c byte_sp) && negb (Ascii.eqb c byte_nl)) e.

(** The schedule of the learning rate: the rate in force once [completed]
    iterations are done. *)
Definition spec_rate (completed : nat) : Q :=
  if completed <? 15 then rate_initial
  else if completed <? 150 then rate_after_15
  else rate_after_150.

(** *** Post-processing *)

Global Instance Qle_dec (x y : Q) : Decision (x <= y)%Q.
Proof.
  destruct (Qle_bool x y) eqn:E.
  - left. by apply Qle_bool_iff.
  - right. intros H. apply Qle_bool_iff in H. congruence.
Defined.

Global Instance Qlt_dec (x y : Q) : Decision (x < y)%Q.
Proof.
  destruct (Qle_bool y x) eqn:E.
  - right. apply Qle_not_lt. by apply Qle_bool_iff.
  - left. apply Qnot_le_lt. intros H. apply Qle_bool_iff in H. congruence.
Defined.

Definition Qltb (x y : Q) : bool := bool_decide (x < y)%Q.

(** [higher a b]: [a] comes before [b] when detections are ranked by
    decreasing score. *)
Definition higher (a b : Detection) : Prop := (det_score b <= det_score a)%Q.

Global Instance higher_dec (a b : Detection) : Decision (higher a b).
Proof. unfold higher. apply _. Defined.

Definition same_class (a b : Detection) : bool :=
  String.eqb (det_class a) (det_class b).

Section PostProcess.
(** The overlap ratio of the boxes of two detections. *)
Variable iou : Detection -> Detection -> Q.

(** Two detections that may both be kept: not of one class, or not
    overlapping above the threshold. *)
Definition apart (iouThr : Q) (a b : Detection) : Prop :=
  det_class a = det_class b -> ¬ (iouThr < iou a b)%Q.

(** [d] overlaps no kept detection of its class above the threshold. *)
Definition survives (iouThr : Q) (kept : list Detection) (d : Detection) : bool :=
  forallb (fun k => negb (same_class k d && Qltb iouThr (iou k d))) kept.

(** Suppression, candidates taken by decreasing score: a candidate is
    kept unless a kept one of its class overlaps it above the
    threshold. *)
Fixpoint suppress (iouThr : Q) (cands kept : list Detection) : list Detection :=
  match cands with
  | [] => kept
  | d :: rest =>
    if survives iouThr kept d then suppress iouThr rest (kept ++ [d])
    else suppress iouThr rest kept
  end.

(** Modelled from the spec: [ProcessOutput] of the model library, which is
    not among the sources.  "Apply the score threshold (discard boxes with
    confidence < 0.8), then apply IoU-based suppression (discard
    overlapping boxes above IoU 0.3 in favor of the higher-scoring one)
    per class"; [raw] are the boxes decoded from the output tensors. *)
Definition spec_ProcessOutput (raw : list Detection) (classes : list string)
    (scoreThr iouThr : Q) : result (list Detection) :=
  let scored := filter (fun d => ¬ (det_score d < scoreThr)%Q) raw in
  Ok (suppress iouThr (merge_sort higher scored) []).
End PostProcess.

(** ** Reading a trace *)

Section Traces.
Context {float32 : Type}.
Implicit Type t : list (@event float32).

(** The learning rates of the optimizer steps, in order. *)
Definition step_rates t : list Q :=
  omap (fun e => match e with Call (C_Step r) => Some r | _ => None end) t.

(** The image files loaded, in order. *)
Definition images_loaded t : list string :=
  omap (fun e => match e with
                 | Call (C_GetFloat32Image p _ _) => Some p
                 | _ => None
                 end) t.

(** The detections printed, in order. *)
Definition printed_dets t : list Detection :=
  omap (fun e => match e with Println [VDet d] => Some d | _ => None end) t.

(** The executions of the graph and the optimizer steps, in order. *)
Inductive work : Type := Run | Step.

Definition work_done t : list work :=
  omap (fun e => match e with
                 | Call C_RunAll => Some Run
                 | Call (C_Step _) => Some Step
                 | _ => None
                 end) t.

(** The failures reported: format and arguments. *)
Definition reports t : list (string * list value) :=
  omap (fun e => match e with
                 | Printf f args =>
                   if bool_decide (f ∈ error_formats) then Some (f, args) else None
                 | _ => None
                 end) t.
End Traces.

(** ** A reference world

    Used to run the driver on concrete inputs.  Floats are kept as exact
    rationals (rounding to 32 bits is left out), and the float parser reads
    plain decimal literals only: an optional sign, digits, at most one
    point.  On the inputs below it accepts and rejects what
    [strconv.ParseFloat] does. *)
Module Reference.

Definition digit_of (c : ascii) : option Z :=
  let v := byte_val c in
  if ((48 <=? v) && (v <=? 57))%Z then Some (v - 48)%Z else None.

Fixpoint decimal_from (s : string) (mant : Z) (scale : positive)
    (dot digits : bool) : option Q :=
  match s with
  | EmptyString => if digits then Some (Qred (mant # scale)) else None
  | String c rest =>
    if Ascii.eqb c byte_dot then
      if dot then None else decimal_from rest mant scale true digits
    else
      match digit_of c with
      | Some d =>
        decimal_from rest (10 * mant + d)%Z
          (if dot then (10 * scale)%positive else scale) dot true
      | None => None
      end
  end.

Definition ParseFloat (s : string) (bitSize : Z) : result Q :=
  let '(neg, body) :=
    match s with
    | String "-"%char rest => (true, rest)
    | String "+"%char rest => (false, rest)
    | _ => (false, s)
    end in
  match decimal_from body 0 1 false false with
  | Some q => Ok (if neg : bool then Qred (- q) else q)
  | None => Err ("strconv.ParseFloat: parsing " +:+ s +:+ ": invalid syntax")
  end.

Definition file (name : string) : FileInfo := {| Name := name; IsDir := false |}.
Definition folder (name : string) : FileInfo := {| Name := name; IsDir := true |}.

(** A folder of [n] annotation files [img000.txt], [img001.txt], ... *)
Definition digit (d : nat) : ascii := ascii_of_nat (48 + d).

Definition numbered (i : nat) : string :=
  String (digit (i / 100))
    (String (digit (i / 10 mod 10)) (String (digit (i mod 10)) EmptyString)).

Definition crowd (n : nat) : list FileInfo :=
  (fun i => file ("img" +:+ numbered i +:+ ".txt")) <$> seq 0 n.

(** The directories, and the content of their files. *)
Definition listing : list (string * list FileInfo) :=
  [("train", [file "sample1.jpg"; file "sample1.txt"]);
   ("tabs", [file "a.txt"]);
   ("dup", [file "a.b.txt"; file "a.txt"]);
   ("bad", [file "a.txt"; file "b.txt"]);
   ("blank", [file "blank.txt"; file "notes.md"; folder "old.txt"]);
   ("none", [file "notes.md"; file "txt"; folder "labels.txt"]);
   ("pair", [file "s1.txt"; file "s2.txt"]);
   ("crowd", crowd 160)].

Definition contents : list (string * string) :=
  [("train/sample1.txt", "0.1 0.2 0.3 0.4");
   ("tabs/a.txt", "1.0" +:+ String byte_tab "2.0");
   ("dup/a.b.txt", "1");
   ("dup/a.txt", "2");
   ("bad/a.txt", "1.0");
   ("bad/b.txt", "1.0 abc 2.0");
   ("blank/blank.txt", "  " +:+ nl +:+ String byte_tab " ");
   ("blank/notes.md", "to do");
   ("none/notes.md", "to do");
   ("none/txt", "1 2");
   ("pair/s1.txt", "0 0.5 0.5 0.25 0.25");
   ("pair/s2.txt", "1 0.5 0.5 0.5 0.5")].

Fixpoint assoc {A} (k : string) (l : list (string * A)) : option A :=
  match l with
  | [] => None
  | (k', a) :: rest => if String.eqb k k' then Some a else assoc k rest
  end.

Definition ReadDir (dir : string) : result (list FileInfo) :=
  match assoc dir listing with
  | Some l => Ok l
  | None => Err ("open " +:+ dir +:+ ": no such file or directory")
  end.

Definition ReadFile (path : string) : result string :=
  match assoc path contents with
  | Some c => Ok c
  | None =>
    if String.prefix "crowd/" path then Ok "0 0.5 0.5 0.25 0.25"
    else Err ("open " +:+ path +:+ ": no such file or directory")
  end.

(** Every image is a single grey pixel. *)
Definition grey (path : string) (h w : Z) : result (list Q) := Ok [1 # 2].

Definition no_image (path : string) (h w : Z) : result (list Q) :=
  Err ("open " +:+ path +:+ ": no such file or directory").

(** Every image but the one at [lost]. *)
Definition all_but (lost path : string) (h w : Z) : result (list Q) :=
  if String.eqb path lost then no_image path h w else grey path h w.

Definition steps_fine (rate : Q) (iter : nat) : option error := None.

Definition steps_fail (rate : Q) (iter : nat) : option error :=
  Some "gradient is NaN".

Definition cfg_missing : error :=
  "open yolov3-tiny.cfg: no such file or directory".

(** Two candidate boxes of the class dog that overlap, one of the class
    cat and one below the score threshold. *)
Definition dog_high : Detection :=
  {| det_class := "dog"; det_score := 95 # 100; det_box := (10, 10, 110, 110)%Z |}.
Definition dog_low : Detection :=
  {| det_class := "dog"; det_score := 85 # 100; det_box := (20, 20, 120, 120)%Z |}.
Definition cat : Detection :=
  {| det_class := "cat"; det_score := 90 # 100; det_box := (20, 20, 120, 120)%Z |}.
Definition faint : Detection :=
  {| det_class := "dog"; det_score := 50 # 100; det_box := (300, 300, 350, 350)%Z |}.

Definition raw : list Detection := [dog_low; faint; cat; dog_high].

(** Intersection over union of two boxes given by their corners. *)
Definition area (b : Z * Z * Z * Z) : Z :=
  let '(x1, y1, x2, y2) := b in (Z.max 0 (x2 - x1) * Z.max 0 (y2 - y1))%Z.

Definition inter (a b : Z * Z * Z * Z) : Z * Z * Z * Z :=
  let '(ax1, ay1, ax2, ay2) := a in
  let '(bx1, by1, bx2, by2) := b in
  (Z.max ax1 bx1, Z.max ay1 by1, Z.min ax2 bx2, Z.min ay2 by2).

Definition iou (a b : Detection) : Q :=
  let i := area (inter (det_box a) (det_box b)) in
  let u := (area (det_box a) + area (det_box b) - i)%Z in
  if (u <=? 0)%Z then 0 else i # Z.to_pos u.

(** The world: the construction of the model answers [yolo], the image
    loader is [image], and the optimizer step answers [step]. *)
Definition world (yolo : option error)
    (image : string -> Z -> Z -> result (list Q))
    (step : Q -> nat -> option error) : World Q Q :=
  {| strconv_ParseFloat := ParseFloat;
     float32_of := fun x => x;
     unicode_lower := fun s => s;
     ioutil_ReadDir := ReadDir;
     ioutil_ReadFile := ReadFile;
     range_keys := fun m => elements (dom m);
     yologo_NewYoloV3 := fun _ _ _ _ _ => yolo;
     yologo_GetFloat32Image := image;
     gorgonia_Let := fun _ _ => None;
     tm_RunAll := fun _ => None;
     model_ProcessOutput := spec_ProcessOutput iou raw;
     model_ActivateTrainingMode := None;
     gorgonia_Concat := None;
     gorgonia_Sum := None;
     gorgonia_Grad := None;
     gorgonia_Compile := None;
     model_SetTarget := fun _ _ => None;
     solver_Step := step |}.

Definition fine : World Q Q := world None grey steps_fine.

(** The annotation maps of the folders [train] and [pair]. *)
Definition pair : gmap string (list Q) :=
  {["s1" := [0 # 1; 1 # 2; 1 # 2; 1 # 4; 1 # 4];
    "s2" := [1 # 1; 1 # 2; 1 # 2; 1 # 2; 1 # 2]]}.

Definition sample1 : gmap string (list Q) :=
  {["sample1" := [1 # 10; 1 # 5; 3 # 10; 2 # 5]]}.

Definition flags (mode train : string) : Flags :=
  {| modeStr := mode;
     weights := "yolov3-tiny.weights";
     cfg := "yolov3-tiny.cfg";
     imagePath := "dog_416x416.jpg";
     trainingFolder := train |}.
End Reference.

(** ** The vocabulary of the properties *)

Section Vocabulary.
Context {float64 float32 : Type}.
Variable W : World float64 float32.

(** The entries of a listing that [parseFolder] reads: the non-directory
    entries whose extension is [.txt]. *)
Definition annotations (filesInfo : list FileInfo) : list FileInfo :=
  filter (fun fileInfo => is_annotation fileInfo = true) filesInfo.

(** The tokens of a file as the parser cuts them: the pieces between
    spaces and newlines, trimmed, the empty ones dropped. *)
Definition trimmed (arr : list string) : list string :=
  filter (fun entity => entity ≠ EmptyString) (strings_TrimSpace <$> arr).

Definition tokens (content : string) : list string :=
  trimmed (file_entities content).

(** The 32-bit float of a token, when it is a valid float. *)
Definition float_of_token (tok : string) : option float32 :=
  match strconv_ParseFloat W tok 32 with
  | Ok f => Some (float32_of W f)
  | Err _ => None
  end.

(** The floats of a readable file all of whose tokens are valid, under
    the parser's tokens and under the whitespace-separated fields of the
    specification. *)
Definition file_floats (dir : string) (fileInfo : FileInfo) : option (list float32) :=
  match ioutil_ReadFile W (file_path dir (Name fileInfo)) with
  | Ok content => mapM float_of_token (tokens content)
  | Err _ => None
  end.

Definition file_fields_floats (dir : string) (fileInfo : FileInfo)
    : option (list float32) :=
  match ioutil_ReadFile W (file_path dir (Name fileInfo)) with
  | Ok content => mapM float_of_token (spec_fields content)
  | Err _ => None
  end.

(** The last entry of a listing that is keyed by [k]. *)
Definition last_keyed (k : string) (l : list FileInfo) : option FileInfo :=
  last (filter (fun fileInfo => stem (Name fileInfo) = k) l).

(** The first testable property of the annotation parser, as it is
    worded, at one directory. *)
Definition parses_fields_of (dir : string) : Prop :=
  forall filesInfo,
    ioutil_ReadDir W dir = Ok filesInfo ->
    annotations filesInfo ≠ [] ->
    (forall fileInfo, fileInfo ∈ annotations filesInfo ->
       is_Some (file_fields_floats dir fileInfo)) ->
    exists targets,
      parseFolder W dir = (Some targets, None) /\
      dom targets = list_to_set ((fun fileInfo => stem (Name fileInfo)) <$> annotations filesInfo) /\
      forall fileInfo, fileInfo ∈ annotations filesInfo ->
        targets !! stem (Name fileInfo) = file_fields_floats dir fileInfo.

Variable fl : Flags.

(** The mode string selects neither path. *)
Definition unrecognized : Prop :=
  strings_ToLower W (modeStr fl) ≠ "detector" /\
  strings_ToLower W (modeStr fl) ≠ "training".

Definition model_built : Prop :=
  yologo_NewYoloV3 W (Z.of_nat (length cocoClasses)) boxes leakyCoef
    (cfg fl) (weights fl) = None.

(** The run is a training run that reaches the loop with the annotation
    map [labeledData]. *)
Definition training_starts (labeledData : gmap string (list float32)) : Prop :=
  model_built /\
  strings_ToLower W (modeStr fl) = "training" /\
  parseFolder W (trainingFolder fl) = (Some labeledData, None) /\
  model_ActivateTrainingMode W = None /\
  gorgonia_Concat W = None /\ gorgonia_Sum W = None /\
  gorgonia_Grad W = None /\ gorgonia_Compile W = None.

(** At the sample [i] of iteration [iter], the image loads, the target
    is set, the input is bound and the graph executes. *)
Definition sample_runs (labeledData : gmap string (list float32))
    (iter : nat) (i : string) : Prop :=
  exists imgf32,
    yologo_GetFloat32Image W (image_of_key fl i) imgHeight imgWidth = Ok imgf32 /\
    model_SetTarget W (index_map labeledData i) iter = None /\
    gorgonia_Let W imgf32 iter = None /\
    tm_RunAll W iter = None.

(** At the sample [i] of iteration [iter], one of these four fails with
    the error [e], and is reported under [format]. *)
Definition sample_fails (labeledData : gmap string (list float32))
    (iter : nat) (i : string) (format : string) (e : error) : Prop :=
  (yologo_GetFloat32Image W (image_of_key fl i) imgHeight imgWidth = Err e
   /\ format = fmt_image) \/
  (exists imgf32,
     yologo_GetFloat32Image W (image_of_key fl i) imgHeight imgWidth = Ok imgf32 /\
     ((model_SetTarget W (index_map labeledData i) iter = Some e
       /\ format = fmt_target) \/
      (model_SetTarget W (index_map labeledData i) iter = None /\
       ((gorgonia_Let W imgf32 iter = Some e /\ format = fmt_let) \/
        (gorgonia_Let W imgf32 iter = None /\
         tm_RunAll W iter = Some e /\ format = fmt_run))))).

(** The rate of the solver at the head of the loop, [iter] iterations
    done. *)
Definition head_rate (iter : nat) : Q :=
  if iter <=? 15 then rate_initial
  else if iter <=? 150 then rate_after_15
  else rate_after_150.
(** What the optimizer step of iteration [iter] makes the driver report,
    and the same over [n] iterations from [iter] on. *)
Definition step_report (iter : nat) : list (string * list value) :=
  match solver_Step W (spec_rate iter) iter with
  | Some e => [(fmt_step, [VStr e])]
  | None => []
  end.

Definition step_reports (iter n : nat) : list (string * list value) :=
  flat_map step_report (seq iter n).

(** The events of the construction of the model, and those of a training
    run up to the loop. *)
Definition building : list (@event float32) :=
  [Call C_NewGraph;
   Call (C_NewTensor [1; channels; imgWidth; imgHeight]%Z "input");
   Call (C_NewYoloV3 (Z.of_nat (length cocoClasses)) boxes leakyCoef (cfg fl) (weights fl))].

Definition training_prelude : list (@event float32) :=
  building ++
  [Call C_Print;
   Call C_ActivateTrainingMode;
   Call (C_NewRMSPropSolver rate_initial);
   Call C_GetOutput; Call C_Concat; Call C_Sum; Call C_Grad; Call C_Compile;
   Call C_NewTapeMachine].

(** The property of the flag layer, as it is worded: an unrecognized mode
    is reported. *)
Definition reports_unrecognized_mode : Prop :=
  unrecognized -> Printf fmt_mode [VStr (modeStr fl)] ∈ fst (main W fl).
End Vocabulary.

(** ** More vocabulary: what else a run and a listing show *)

(** A string without a dot. *)
Definition dot_free (s : string) : bool :=
  forallb (fun c => negb (Ascii.eqb c byte_dot)) (list_ascii_of_string s).

(** A string that holds neither of the two bytes at which the parser
    cuts. *)
Definition uncut (s : string) : bool :=
  no_separator (list_ascii_of_string s).

(** The flags with another mode string. *)
Definition with_mode (fl : Flags) (mode : string) : Flags :=
  {| modeStr := mode;
     weights := weights fl;
     cfg := cfg fl;
     imagePath := imagePath fl;
     trainingFolder := trainingFolder fl |}.

(** The calls that belong to the training path only. *)
Definition trains {float32 : Type} (c : @call float32) : bool :=
  match c with
  | C_ActivateTrainingMode | C_NewRMSPropSolver _ | C_GetOutput | C_Concat
  | C_Sum | C_Grad | C_Compile | C_SetTarget _ | C_Step _ => true
  | _ => false
  end.

Section MoreTraces.
Context {float32 : Type}.
Implicit Type t : list (@event float32).

(** The targets set on the model and the images bound to the input, in
    order. *)
Definition targets_set t : list (list float32) :=
  omap (fun e => match e with Call (C_SetTarget v) => Some v | _ => None end) t.

Definition inputs_bound t : list (list float32) :=
  omap (fun e => match e with Call (C_Let image) => Some image | _ => None end) t.

(** The life of the tape machine: made, run, the optimizer stepped on its
    gradients, reset, closed. *)
Inductive machine_op : Type := Made | Ran | Stepped | WasReset | Closed.

Definition machine t : list machine_op :=
  omap (fun e => match e with
                 | Call C_NewTapeMachine => Some Made
                 | Call C_RunAll => Some Ran
                 | Call (C_Step _) => Some Stepped
                 | Call C_Reset => Some WasReset
                 | Call C_Close => Some Closed
                 | _ => None
                 end) t.

(** The calls of the training path and the calls of [ProcessOutput]. *)
Definition training_calls t : list (@call float32) :=
  omap (fun e => match e with
                 | Call c => if trains c then Some c else None
                 | _ => None
                 end) t.

Definition detector_calls t : list (Q * Q) :=
  omap (fun e => match e with
                 | Call (C_ProcessOutput _ score iou) => Some (score, iou)
                 | _ => None
                 end) t.

(** The failures reported that end a run: every report but that of a
    failed optimizer step. *)
Definition fatal_reports t : list (string * list value) :=
  filter (fun r => fst r ≠ fmt_step) (reports t).

(** The numbers of the iterations announced as done. *)
Definition iterations_printed t : list Z :=
  omap (fun e => match e with
                 | Printf f [VInt n; VElapsed] =>
                   if bool_decide (f = fmt_iteration) then Some n else None
                 | _ => None
                 end) t.
End MoreTraces.

(** ** More folders for the reference world *)
Module Scenes.

(** [locked/b.txt] is listed and cannot be read; [mixed] holds entries
    that are not annotation files next to two that are. *)
Definition listing : list (string * list FileInfo) :=
  [("locked", [Reference.file "a.txt"; Reference.file "b.txt"; Reference.file "c.txt"]);
   ("late", [Reference.file "a.txt"; Reference.file "b.txt"]);
   ("mixed", [Reference.file "README.md"; Reference.file "img.v2.txt";
              Reference.folder "backup.txt"; Reference.file "s1.jpg";
              Reference.file "s1.txt"; Reference.file "s1.txt.bak"]);
   ("pair", [Reference.file "s1.txt"; Reference.file "s2.txt"])].

Definition contents : list (string * string) :=
  [("locked/a.txt", "0 0.5 0.5 0.25 0.25");
   ("locked/c.txt", "oops");
   ("late/a.txt", "1 0.5");
   ("late/b.txt", "0 0.5 x1 0.25 y2");
   ("mixed/README.md", "labels for the dogs");
   ("mixed/img.v2.txt", "2 0.1 0.1 0.2 0.2");
   ("mixed/s1.txt", "0 0.5 0.5 0.25 0.25");
   ("pair/s1.txt", "0 0.5 0.5 0.25 0.25");
   ("pair/s2.txt", "1 0.5 0.5 0.5 0.5")].

Definition ReadDir (dir : string) : result (list FileInfo) :=
  match Reference.assoc dir listing with
  | Some l => Ok l
  | None => Err ("open " +:+ dir +:+ ": no such file or directory")
  end.

Definition ReadFile (path : string) : result string :=
  match Reference.assoc path contents with
  | Some c => Ok c
  | None => Err ("open " +:+ path +:+ ": permission denied")
  end.

(** The same folders where every file reads as [garbage], but for the
    annotation files, which read as before. *)
Definition ReadFile_garbled (path : string) : result string :=
  if String.eqb (filepath_Ext path) ".txt" then ReadFile path else Ok "garbage".

(** The world over these folders: the graph execution answers [run] and
    the optimizer step [step]. *)
Definition world (read : string -> result string)
    (run : nat -> option error) (step : Q -> nat -> option error) : World Q Q :=
  {| strconv_ParseFloat := Reference.ParseFloat;
     float32_of := fun x => x;
     unicode_lower := fun s => s;
     ioutil_ReadDir := ReadDir;
     ioutil_ReadFile := read;
     range_keys := fun m => elements (dom m);
     yologo_NewYoloV3 := fun _ _ _ _ _ => None;
     yologo_GetFloat32Image := Reference.grey;
     gorgonia_Let := fun _ _ => None;
     tm_RunAll := run;
     model_ProcessOutput := spec_ProcessOutput Reference.iou Reference.raw;
     model_ActivateTrainingMode := None;
     gorgonia_Concat := None;
     gorgonia_Sum := None;
     gorgonia_Grad := None;
     gorgonia_Compile := None;
     model_SetTarget := fun _ _ => None;
     solver_Step := step |}.

Definition runs_fine (iter : nat) : option error := None.

(** The execution of the graph fails at the second sample. *)
Definition second_run_fails (iter : nat) : option error :=
  if iter =? 1 then Some "out of memory" else None.

Definition plain_world : World Q Q := world ReadFile runs_fine Reference.steps_fine.
End Scenes.

(** ** Facts about the annotation parser *)

Section ParserFacts.
Context {float64 float32 : Type}.
Variable W : World float64 float32.

Lemma target_key_stem (name : string) : target_key name = stem name.
Proof.
  unfold target_key.
  induction name as [|c rest IH]; simpl; [done|].
  destruct (Ascii.eqb c byte_dot); [done|].
  destruct (strings_Split rest byte_dot); simpl in *; by rewrite IH.
Qed.

Lemma trimmed_cons (x : string) (arr : list string) :
  trimmed (x :: arr) =
  if decide (strings_TrimSpace x = EmptyString) then trimmed arr
  else strings_TrimSpace x :: trimmed arr.
Proof.
  unfold trimmed. rewrite fmap_cons, filter_cons.
  destruct (decide (strings_TrimSpace x = EmptyString));
    destruct (decide (strings_TrimSpace x ≠ EmptyString)); done.
Qed.

Lemma float_of_token_Some (tok : string) (v : float32) :
  float_of_token W tok = Some v <->
  exists f, strconv_ParseFloat W tok 32 = Ok f /\ v = float32_of W f.
Proof.
  unfold float_of_token. destruct (strconv_ParseFloat W tok 32) as [f|e]; split.
  - intros [= <-]. eauto.
  - by intros (f' & [= <-] & ->).
  - done.
  - by intros (f' & ? & _).
Qed.

Lemma float_of_token_None (tok : string) :
  float_of_token W tok = None <-> exists e, strconv_ParseFloat W tok 32 = Err e.
Proof.
  unfold float_of_token. destruct (strconv_ParseFloat W tok 32) as [f|e]; split.
  - done.
  - by intros [e ?].
  - eauto.
  - done.
Qed.

(** The inner loop appends the floats of the tokens, in order. *)
Lemma parse_entities_ok (arr : list string) (acc vs : list float32) :
  mapM (float_of_token W) (trimmed arr) = Some vs ->
  parse_entities W arr acc = Ok (acc ++ vs).
Proof.
  rewrite mapM_Some. revert acc vs.
  induction arr as [|x rest IH]; intros acc vs H; simpl.
  - inversion H. by rewrite app_nil_r.
  - rewrite trimmed_cons in H.
    destruct (decide (strings_TrimSpace x = EmptyString)); [by apply IH|].
    inversion H as [|tok v toks vs' Hv Hrest]; subst.
    apply float_of_token_Some in Hv as (f & -> & ->).
    rewrite (IH _ vs') by done. by rewrite <- app_assoc.
Qed.

(** It stops at the first token that is not a float. *)
Lemma parse_entities_err (arr : list string) (acc : list float32) :
  mapM (float_of_token W) (trimmed arr) = None ->
  exists e, parse_entities W arr acc = Err e.
Proof.
  rewrite mapM_None. revert acc.
  induction arr as [|x rest IH]; intros acc H; simpl.
  - inversion H.
  - rewrite trimmed_cons in H.
    destruct (decide (strings_TrimSpace x = EmptyString)); [by apply IH|].
    destruct (strconv_ParseFloat W (strings_TrimSpace x) 32) as [f|e] eqn:Ep;
      [|by eexists].
    inversion H as [tok toks Hv|tok toks Hrest]; subst.
    + apply float_of_token_None in Hv as [e' He']. congruence.
    + by apply IH.
Qed.

Lemma annotations_cons (fi : FileInfo) (rest : list FileInfo) :
  annotations (fi :: rest) =
  if is_annotation fi then fi :: annotations rest else annotations rest.
Proof.
  unfold annotations. rewrite filter_cons.
  destruct (is_annotation fi); by destruct (decide _).
Qed.

Lemma parse_files_cons (dir : string) (fi : FileInfo) (rest : list FileInfo)
    (targets : gmap string (list float32)) :
  parse_files W dir (fi :: rest) targets =
  if is_annotation fi then
    match ioutil_ReadFile W (file_path dir (Name fi)) with
    | Err err => Err err
    | Ok fileBytes =>
      match parse_entities W (file_entities fileBytes) [] with
      | Err err => Err err
      | Ok sliceOfF32 =>
        parse_files W dir rest (<[target_key (Name fi) := sliceOfF32]> targets)
      end
    end
  else parse_files W dir rest targets.
Proof. simpl. unfold is_annotation. by destruct (_ || _). Qed.

(** The outer loop, when every annotation file reads and parses: a key
    maps to the floats of the last file keyed by it, and the keys of no
    file keep what they had. *)
Lemma parse_files_ok (dir : string) (filesInfo : list FileInfo)
    (targets : gmap string (list float32)) :
  (forall fileInfo, fileInfo ∈ annotations filesInfo ->
     is_Some (file_floats W dir fileInfo)) ->
  exists targets',
    parse_files W dir filesInfo targets = Ok targets' /\
    forall k, targets' !! k =
      match last_keyed k (annotations filesInfo) with
      | Some fileInfo => file_floats W dir fileInfo
      | None => targets !! k
      end.
Proof.
  revert targets. induction filesInfo as [|fi rest IH]; intros targets Hall.
  - by exists targets.
  - rewrite parse_files_cons. rewrite annotations_cons in Hall |- *.
    destruct (is_annotation fi); [|by apply IH].
    + destruct (Hall fi) as [vs Hvs]; [by left|].
      unfold file_floats in Hvs.
      destruct (ioutil_ReadFile W (file_path dir (Name fi))) as [content|] eqn:Er; [|done].
      rewrite (parse_entities_ok _ [] vs) by done. simpl.
      destruct (IH (<[target_key (Name fi):=vs]> targets)) as (t' & -> & Hlook).
      { intros fj Hj. apply Hall. by right. }
      exists t'. split; [done|]. intros k. rewrite Hlook.
      unfold last_keyed. rewrite filter_cons.
      destruct (decide (stem (Name fi) = k)) as [<-|Hne].
      * destruct (filter _ (annotations rest)) as [|fj l] eqn:Ef.
        -- simpl. rewrite target_key_stem, lookup_insert_eq.
           unfold file_floats. by rewrite Er.
        -- rewrite last_cons_cons.
           destruct (last (fj :: l)) eqn:El; [done|]. by apply last_None in El.
      * destruct (last _); [done|].
        rewrite lookup_insert_ne; [done|]. by rewrite target_key_stem.
Qed.

(** The outer loop fails as soon as one annotation file does. *)
Lemma parse_files_err (dir : string) (filesInfo : list FileInfo)
    (targets : gmap string (list float32)) (fileInfo : FileInfo) :
  fileInfo ∈ annotations filesInfo ->
  file_floats W dir fileInfo = None ->
  exists e, parse_files W dir filesInfo targets = Err e.
Proof.
  revert targets. induction filesInfo as [|fi rest IH]; intros targets Hin Hbad.
  - by apply elem_of_nil in Hin.
  - rewrite parse_files_cons. rewrite annotations_cons in Hin.
    destruct (is_annotation fi); [|by apply IH].
    + destruct (ioutil_ReadFile W (file_path dir (Name fi))) as [content|e] eqn:Er;
        [|by eexists].
      destruct (mapM (float_of_token W) (tokens content)) as [vs|] eqn:Em.
      * rewrite (parse_entities_ok _ [] vs) by done. simpl.
        apply elem_of_cons in Hin as [->|Hin].
        -- unfold file_floats in Hbad. rewrite Er in Hbad. congruence.
        -- by apply IH.
      * destruct (parse_entities_err _ [] Em) as [e ->]. by eexists.
Qed.

Lemma last_keyed_Some (k : string) (l : list FileInfo) (fileInfo : FileInfo) :
  last_keyed k l = Some fileInfo -> fileInfo ∈ l /\ stem (Name fileInfo) = k.
Proof.
  unfold last_keyed. intros Hlast.
  assert (fileInfo ∈ filter (fun fi => stem (Name fi) = k) l) as Hin.
  { apply last_Some in Hlast as [l' ->]. set_solver. }
  by apply list_elem_of_filter in Hin as [? ?].
Qed.

Lemma last_keyed_is_Some (l : list FileInfo) (fileInfo : FileInfo) :
  fileInfo ∈ l -> is_Some (last_keyed (stem (Name fileInfo)) l).
Proof.
  intros Hin. unfold last_keyed.
  destruct (last _) eqn:El; [by eexists|].
  apply last_None in El.
  assert (fileInfo ∈ filter (fun fi => stem (Name fi) = stem (Name fileInfo)) l) as Hf
    by by apply list_elem_of_filter.
  rewrite El in Hf. by apply elem_of_nil in Hf.
Qed.

(** [parseFolder] on a listing all of whose annotation files read and
    parse. *)
Lemma parseFolder_ok (dir : string) (filesInfo : list FileInfo) :
  ioutil_ReadDir W dir = Ok filesInfo ->
  annotations filesInfo ≠ [] ->
  (forall fileInfo, fileInfo ∈ annotations filesInfo ->
     is_Some (file_floats W dir fileInfo)) ->
  exists targets,
    parseFolder W dir = (Some targets, None) /\
    forall k, targets !! k =
      last_keyed k (annotations filesInfo) ≫= file_floats W dir.
Proof.
  intros Hdir Hsome Hall. unfold parseFolder. rewrite Hdir.
  destruct (parse_files_ok dir filesInfo ∅ Hall) as (targets & -> & Hlook).
  assert (forall k, targets !! k =
            last_keyed k (annotations filesInfo) ≫= file_floats W dir) as Hlook'.
  { intros k. rewrite Hlook. by destruct (last_keyed _ _). }
  exists targets. split; [|done].
  destruct (annotations filesInfo) as [|fi anns] eqn:Ea; [done|].
  assert (fi ∈ fi :: anns) as Hfi by by left.
  destruct (last_keyed_is_Some _ _ Hfi) as [fj Hfj].
  destruct (Hall fj) as [vs Hvs]; [by apply last_keyed_Some in Hfj as [? _]|].
  assert (targets !! stem (Name fi) = Some vs) as Hk.
  { rewrite Hlook', Hfj. done. }
  destruct (size targets) eqn:Esize; [|done].
  apply map_size_empty_iff in Esize. subst targets.
  by rewrite lookup_empty in Hk.
Qed.

(** C1, as amended: when a listing has at least one annotation file, and
    every annotation file is readable and each of its tokens (the pieces
    between spaces and newlines, trimmed of surrounding white space, the
    empty ones dropped) is a valid float, [parseFolder] returns a map and
    no error; the keys of the map are the names of the annotation files
    truncated at the first dot, and the value of a key is the sequence of
    floats, in file order, of the last file of the listing with that
    key.  ([parseFolder_returns_fields] below gives the listings on which
    these tokens are the whitespace-separated fields and every file is the
    last with its key.) *)
Theorem parseFolder_returns_annotations (dir : string) (filesInfo : list FileInfo) :
  ioutil_ReadDir W dir = Ok filesInfo ->
  annotations filesInfo ≠ [] ->
  (forall fileInfo, fileInfo ∈ annotations filesInfo ->
     is_Some (file_floats W dir fileInfo)) ->
  exists targets,
    parseFolder W dir = (Some targets, None) /\
    dom targets =
      list_to_set ((fun fileInfo => stem (Name fileInfo)) <$> annotations filesInfo) /\
    (forall k, targets !! k =
       last_keyed k (annotations filesInfo) ≫= file_floats W dir) /\
    (forall fileInfo,
       last_keyed (stem (Name fileInfo)) (annotations filesInfo) = Some fileInfo ->
       targets !! stem (Name fileInfo) = file_floats W dir fileInfo).
Proof.
  intros Hdir Hsome Hall.
  destruct (parseFolder_ok dir filesInfo Hdir Hsome Hall) as (targets & Hret & Hlook).
  exists targets. split; [done|]. split; [|split; [done|]].
  - apply set_eq. intros k.
    rewrite elem_of_dom, elem_of_list_to_set, list_elem_of_fmap, Hlook.
    split.
    + intros [vs Hvs].
      destruct (last_keyed k (annotations filesInfo)) as [fi|] eqn:El; [|done].
      apply last_keyed_Some in El as [Hin Hk]. by exists fi.
    + intros (fi & -> & Hin).
      destruct (last_keyed_is_Some _ _ Hin) as [fj Hfj]. rewrite Hfj. simpl.
      apply Hall. by apply last_keyed_Some in Hfj as [? _].
  - intros fi Hlast. by rewrite Hlook, Hlast.
Qed.

(** C2: when some annotation file of the listing holds a token that is
    not a valid float, [parseFolder] returns an error and the nil map,
    whatever the files before it held. *)
Theorem parseFolder_rejects_bad_token (dir : string) (filesInfo : list FileInfo)
    (fileInfo : FileInfo) (content tok : string) (e : error) :
  ioutil_ReadDir W dir = Ok filesInfo ->
  fileInfo ∈ annotations filesInfo ->
  ioutil_ReadFile W (file_path dir (Name fileInfo)) = Ok content ->
  tok ∈ tokens content ->
  strconv_ParseFloat W tok 32 = Err e ->
  exists err, parseFolder W dir = (None, Some err).
Proof.
  intros Hdir Hin Hread Htok Hbad. unfold parseFolder. rewrite Hdir.
  assert (file_floats W dir fileInfo = None) as Hnone.
  { unfold file_floats. rewrite Hread. apply mapM_None.
    apply Exists_exists. exists tok. split; [done|].
    apply float_of_token_None. by exists e. }
  destruct (parse_files_err dir filesInfo ∅ fileInfo Hin Hnone) as [err ->].
  by exists err.
Qed.

(** C3: on a readable directory without annotation files (no entry that
    is not a directory and has the extension [.txt]), [parseFolder]
    returns the nil map and the error that names the folder. *)
Theorem parseFolder_rejects_empty (dir : string) (filesInfo : list FileInfo) :
  ioutil_ReadDir W dir = Ok filesInfo ->
  annotations filesInfo = [] ->
  parseFolder W dir = (None, Some (no_annotations dir)).
Proof.
  intros Hdir Hnone. unfold parseFolder. rewrite Hdir.
  destruct (parse_files_ok dir filesInfo ∅) as (targets & -> & Hlook).
  { rewrite Hnone. intros fi Hfi. by apply elem_of_nil in Hfi. }
  assert (targets = ∅) as ->.
  { apply map_eq. intros k. rewrite Hlook, Hnone. done. }
  done.
Qed.
End ParserFacts.

(** ** Facts about white space *)

Section WhiteSpace.

Lemma IsSpace_runes (r : Z) : unicode_IsSpace r = true -> In r space_runes.
Proof.
  unfold unicode_IsSpace, space_runes. simpl In.
  destruct (r <=? 255)%Z eqn:E; intros H;
    rewrite ?orb_true_iff, ?andb_true_iff, ?Z.eqb_eq, ?Z.leb_le in H; lia.
Qed.

Lemma decode_space_rune (r : Z) (p : list ascii) :
  unicode_IsSpace r = true ->
  utf8_DecodeRune (utf8_EncodeRune r ++ p) = (r, length (utf8_EncodeRune r)).
Proof.
  intros H. apply IsSpace_runes in H. revert p.
  unfold space_runes in H. simpl In in H.
  repeat (destruct H as [<-|H]; [intros p; reflexivity|]). done.
Qed.

Lemma separator_space_rune (r : Z) :
  unicode_IsSpace r = true ->
  utf8_EncodeRune r = [byte_sp] \/ utf8_EncodeRune r = [byte_nl] \/
  no_separator (utf8_EncodeRune r) = true.
Proof.
  intros H. apply IsSpace_runes in H.
  unfold space_runes in H. simpl In in H.
  repeat (destruct H as [<-|H];
          [first [left; reflexivity | right; left; reflexivity
                 | right; right; reflexivity]|]).
  done.
Qed.

Lemma EncodeRune_cons (r : Z) : exists c e, utf8_EncodeRune r = c :: e.
Proof.
  unfold utf8_EncodeRune.
  destruct (r <? 128)%Z; [by eexists _, _|].
  destruct (r <? 2048)%Z; by eexists _, _.
Qed.

Lemma append_String (c : ascii) (a b : string) :
  String c a +:+ b = String c (a +:+ b).
Proof. reflexivity. Qed.

Lemma append_Empty (b : string) : EmptyString +:+ b = b.
Proof. reflexivity. Qed.

Lemma list_ascii_app (a b : string) :
  list_ascii_of_string (a +:+ b) = list_ascii_of_string a ++ list_ascii_of_string b.
Proof.
  induction a as [|c a IH]; [done|].
  rewrite append_String. simpl. by rewrite IH.
Qed.

Lemma ReplaceAll_app (a b : string) (old new : ascii) :
  strings_ReplaceAll (a +:+ b) old new =
  strings_ReplaceAll a old new +:+ strings_ReplaceAll b old new.
Proof.
  induction a as [|c a IH]; [done|].
  rewrite append_String. simpl. by rewrite IH, append_String.
Qed.

Lemma ReplaceAll_no_separator (e : list ascii) :
  no_separator e = true ->
  strings_ReplaceAll (string_of_list_ascii e) byte_nl byte_sp = string_of_list_ascii e.
Proof.
  induction e as [|c e IH]; simpl; [done|].
  intros [[_ Hnl]%andb_true_iff He]%andb_true_iff.
  rewrite IH by done. by destruct (Ascii.eqb c byte_nl).
Qed.

Lemma Split_cons (s : string) (sep : ascii) :
  exists h t, strings_Split s sep = h :: t.
Proof.
  destruct s as [|c s]; simpl; [by eexists _, _|].
  destruct (Ascii.eqb c sep); [by eexists _, _|].
  destruct (strings_Split s sep); by eexists _, _.
Qed.

Lemma Split_no_separator (e : list ascii) (s h : string) (t : list string) :
  no_separator e = true ->
  strings_Split s byte_sp = h :: t ->
  strings_Split (string_of_list_ascii e +:+ s) byte_sp =
    (string_of_list_ascii e +:+ h) :: t.
Proof.
  intros He Hs. induction e as [|c e IH]; simpl; [done|].
  simpl in He. apply andb_true_iff in He as [[Hsp _]%andb_true_iff He].
  rewrite !append_String. simpl. destruct (Ascii.eqb c byte_sp); [done|].
  by rewrite IH.
Qed.

(** The pieces of a content that is white space only are white space
    only. *)
Lemma entities_space_only (s : string) :
  space_only s -> Forall space_only (file_entities s).
Proof.
  induction 1 as [|r s Hr Hs IH].
  - repeat constructor.
  - unfold file_entities in *. rewrite ReplaceAll_app.
    destruct (Split_cons (strings_ReplaceAll s byte_nl byte_sp) byte_sp) as (h & t & Hsplit).
    rewrite Hsplit in IH. apply Forall_cons in IH as [Hh Ht].
    destruct (separator_space_rune r Hr) as [->|[->|He]].
    + simpl. rewrite ?append_String, ?append_Empty.
      simpl. rewrite Hsplit. repeat constructor; done.
    + simpl. rewrite ?append_String, ?append_Empty.
      simpl. rewrite Hsplit. repeat constructor; done.
    + rewrite ReplaceAll_no_separator by done.
      rewrite (Split_no_separator _ _ h t) by done.
      constructor; [|done]. by constructor.
Qed.

Lemma indexFunc_skip (f : Z -> bool) (truth : bool) (q p : list ascii) (i : nat) :
  indexFunc_from f truth (q ++ p) i (length q) =
  indexFunc_from f truth p (i + length q) 0.
Proof.
  revert i. induction q as [|c q IH]; intros i; simpl.
  - by rewrite Nat.add_0_r.
  - rewrite IH. f_equal. lia.
Qed.

Lemma indexFunc_space_only (s : string) (i : nat) :
  space_only s ->
  indexFunc_from unicode_IsSpace false (list_ascii_of_string s) i 0 = (-1)%Z.
Proof.
  intros Hs. revert i. induction Hs as [|r s Hr Hs IH]; intros i; [done|].
  rewrite list_ascii_app, list_ascii_of_string_of_list_ascii.
  pose proof (decode_space_rune r (list_ascii_of_string s) Hr) as Hdec.
  destruct (EncodeRune_cons r) as (c & e & He). rewrite He in Hdec |- *.
  simpl app in *. unfold indexFunc_from; fold indexFunc_from.
  rewrite Hdec, Hr. simpl. rewrite Nat.sub_0_r, indexFunc_skip. apply IH.
Qed.

(** [strings.TrimSpace] leaves nothing of white space. *)
Lemma TrimSpace_space_only (s : string) :
  space_only s -> strings_TrimSpace s = EmptyString.
Proof.
  intros Hs. unfold strings_TrimSpace, TrimFunc, TrimLeftFunc, indexFunc.
  by rewrite indexFunc_space_only.
Qed.

Lemma tokens_space_only (content : string) :
  space_only content -> tokens content = [].
Proof.
  intros Hs. apply entities_space_only in Hs.
  unfold tokens, trimmed. induction Hs as [|x arr Hx Harr IH]; [done|].
  rewrite fmap_cons, filter_cons, (TrimSpace_space_only x Hx).
  by destruct (decide _).
Qed.

(** A content of ASCII white space is white space only. *)
Lemma space_only_ascii (s : string) :
  forallb is_space_byte (list_ascii_of_string s) = true -> space_only s.
Proof.
  induction s as [|c s IH]; simpl; [constructor|].
  intros [Hc Hs]%andb_true_iff.
  assert (unicode_IsSpace (byte_val c) = true /\
          string_of_list_ascii (utf8_EncodeRune (byte_val c)) = String c EmptyString)
    as [Hr He].
  { destruct c as [[] [] [] [] [] [] [] []]; by vm_compute in Hc |- *. }
  rewrite <- (append_Empty s), <- append_String, <- He. constructor; auto.
Qed.
End WhiteSpace.

(** ** Facts about contents separated by spaces and newlines *)

Section PlainContents.

Lemma solid_byte_not_space (c : ascii) :
  solid_byte c = true ->
  (byte_val c <? RuneSelf)%Z = true /\ unicode_IsSpace (byte_val c) = false.
Proof.
  unfold solid_byte. destruct c as [[] [] [] [] [] [] [] []]; by vm_compute.
Qed.

Lemma DecodeRune_ascii (c : ascii) (p : list ascii) :
  (byte_val c <? RuneSelf)%Z = true -> utf8_DecodeRune (c :: p) = (byte_val c, 1).
Proof.
  intros Hc. unfold utf8_DecodeRune, utf8_first.
  change 128%Z with RuneSelf. by rewrite Hc.
Qed.

Lemma DecodeLastRune_ascii (p : list ascii) (c : ascii) :
  (byte_val c <? RuneSelf)%Z = true -> utf8_DecodeLastRune (p ++ [c]) = (byte_val c, 1).
Proof.
  intros Hc. unfold utf8_DecodeLastRune.
  rewrite length_app, Nat.add_1_r. unfold byte_at.
  rewrite app_nth2 by lia. rewrite Nat.sub_diag. simpl nth. by rewrite Hc.
Qed.

Lemma lastIndexFunc_solid (q : list ascii) (d : ascii) :
  solid_byte d = true ->
  lastIndexFunc (q ++ [d]) unicode_IsSpace false = Z.of_nat (length q).
Proof.
  intros [Hascii Hspace]%solid_byte_not_space.
  unfold lastIndexFunc. rewrite length_app, Nat.add_1_r.
  unfold lastIndexFunc_from.
  replace (take (S (length q)) (q ++ [d])) with (q ++ [d])
    by (symmetry; apply firstn_all2; rewrite length_app; simpl; lia).
  rewrite (DecodeLastRune_ascii q d Hascii), Hspace. simpl. by rewrite Nat.sub_0_r.
Qed.

(** [strings.TrimSpace] leaves a token of a plain content as it is. *)
Lemma TrimSpace_solid (x : string) : solid x = true -> strings_TrimSpace x = x.
Proof.
  unfold solid, strings_TrimSpace, TrimFunc. intros Hx.
  rewrite <- (string_of_list_ascii_of_string x) at 2. f_equal.
  destruct (list_ascii_of_string x) as [|c p] eqn:Ep; [done|].
  assert (TrimLeftFunc (c :: p) unicode_IsSpace = c :: p) as ->.
  { simpl in Hx. apply andb_true_iff in Hx as [Hc _].
    apply solid_byte_not_space in Hc as [Hascii Hspace].
    unfold TrimLeftFunc, indexFunc. unfold indexFunc_from.
    by rewrite (DecodeRune_ascii c p Hascii), Hspace. }
  destruct (exists_last (l := c :: p)) as (q & d & Hq); [done|].
  rewrite Hq in Hx |- *. rewrite forallb_app in Hx.
  apply andb_true_iff in Hx as [_ Hd]. simpl in Hd. rewrite andb_true_r in Hd.
  unfold TrimRightFunc. rewrite (lastIndexFunc_solid q d Hd).
  apply solid_byte_not_space in Hd as [Hascii Hspace].
  rewrite Nat2Z.id. unfold byte_at. rewrite app_nth2 by lia.
  rewrite Nat.sub_diag. simpl nth.
  assert (((0 <=? Z.of_nat (length q)) && (RuneSelf <=? byte_val d))%Z = false) as ->.
  { apply andb_false_iff. right. apply Z.leb_gt. by apply Z.ltb_lt. }
  apply firstn_all2. rewrite length_app. simpl. lia.
Qed.

Lemma append_EmptyString_r (a : string) : a +:+ EmptyString = a.
Proof. induction a as [|c a IH]; [done|]. by rewrite append_String, IH. Qed.

Lemma append_assoc (a b c : string) : (a +:+ b) +:+ c = a +:+ (b +:+ c).
Proof. induction a as [|x a IH]; [done|]. by rewrite !append_String, IH. Qed.

(** On a plain content, the pieces between spaces and newlines are the
    whitespace-separated fields, and hold no white space. *)
Lemma entities_plain (content cur : string) :
  plain content = true ->
  exists h t,
    file_entities content = h :: t /\
    fields_from content cur = nonempty ((cur +:+ h) :: t) /\
    (solid cur = true -> Forall (fun x => solid x = true) ((cur +:+ h) :: t)).
Proof.
  unfold plain, file_entities. revert cur.
  induction content as [|c content IH]; intros cur Hplain; simpl in *.
  - exists EmptyString, []. rewrite append_EmptyString_r. split; [done|].
    split; [|by repeat constructor].
    unfold nonempty. rewrite filter_cons, filter_nil.
    by destruct (decide (cur = EmptyString)), (decide (cur ≠ EmptyString)).
  - apply andb_true_iff in Hplain as [Hc Hplain].
    unfold plain_byte in Hc. apply andb_true_iff in Hc as [Hascii Hc].
    destruct (is_space_byte c) eqn:Hspace.
    + assert ((if Ascii.eqb c byte_nl then byte_sp else c) = byte_sp) as ->.
      { simpl in Hc. apply orb_true_iff in Hc as [Hc|Hc].
        - apply Ascii.eqb_eq in Hc as ->. done.
        - by rewrite Hc. }
      simpl. destruct (IH EmptyString Hplain) as (h & t & -> & Hfields & Hsolid).
      exists EmptyString, (h :: t). split; [done|].
      rewrite Hfields, append_EmptyString_r. split.
      * unfold nonempty. rewrite (filter_cons _ cur).
        by destruct (decide (cur = EmptyString)), (decide (cur ≠ EmptyString)).
      * intros Hcur. constructor; [done|]. by apply Hsolid.
    + assert (Ascii.eqb c byte_nl = false) as Hnl.
      { apply not_true_iff_false. intros ->%Ascii.eqb_eq. done. }
      assert (Ascii.eqb c byte_sp = false) as Hsp.
      { apply not_true_iff_false. intros ->%Ascii.eqb_eq. done. }
      rewrite Hnl, Hsp.
      destruct (IH (cur +:+ String c EmptyString) Hplain) as (h & t & -> & Hfields & Hsolid).
      exists (String c h), t. split; [done|].
      rewrite append_assoc, append_String, append_Empty in Hfields, Hsolid.
      split; [done|]. intros Hcur. apply Hsolid.
      unfold solid in *. rewrite list_ascii_app, forallb_app, Hcur. simpl.
      unfold solid_byte. by rewrite Hascii, Hspace.
Qed.

(** On a plain content the parser cuts the whitespace-separated fields of
    the specification. *)
Lemma tokens_are_fields (content : string) :
  plain content = true -> tokens content = spec_fields content.
Proof.
  intros Hplain. unfold tokens, spec_fields, trimmed.
  destruct (entities_plain content EmptyString Hplain) as (h & t & -> & -> & Hsolid).
  rewrite append_Empty in *. specialize (Hsolid eq_refl).
  unfold nonempty. f_equal.
  induction Hsolid as [|x l Hx Hl IH]; [done|].
  by rewrite fmap_cons, (TrimSpace_solid x Hx), IH.
Qed.
End PlainContents.

Section BlankFiles.
Context {float64 float32 : Type}.
Variable W : World float64 float32.

(** C9: an annotation file that is empty or holds white space only is
    read without error as the empty vector, and when it is the only
    annotation file of the listing [parseFolder] returns the map of its
    key to the empty vector, and no error. *)
Theorem blank_file_is_annotation (dir : string) (filesInfo : list FileInfo)
    (fileInfo : FileInfo) (content : string) :
  ioutil_ReadDir W dir = Ok filesInfo ->
  annotations filesInfo = [fileInfo] ->
  ioutil_ReadFile W (file_path dir (Name fileInfo)) = Ok content ->
  space_only content ->
  parse_entities W (file_entities content) [] = Ok [] /\
  parseFolder W dir = (Some {[stem (Name fileInfo) := []]}, None).
Proof.
  intros Hdir Hanns Hread Hblank.
  pose proof (tokens_space_only content Hblank) as Htok.
  assert (file_floats W dir fileInfo = Some []) as Hfloats.
  { unfold file_floats. by rewrite Hread, Htok. }
  split.
  - apply (parse_entities_ok W _ [] []). fold (tokens content). by rewrite Htok.
  - destruct (parseFolder_ok W dir filesInfo Hdir) as (targets & -> & Hlook).
    { by rewrite Hanns. }
    { rewrite Hanns. intros fi ->%list_elem_of_singleton. by rewrite Hfloats. }
    do 2 f_equal. apply map_eq. intros k. rewrite Hlook, Hanns.
    unfold last_keyed. rewrite filter_cons, filter_nil.
    destruct (decide (stem (Name fileInfo) = k)) as [<-|Hne]; simpl.
    + by rewrite lookup_singleton_eq.
    + by rewrite lookup_singleton_ne.
Qed.

Lemma last_keyed_unique (l : list FileInfo) (fileInfo : FileInfo) :
  NoDup ((fun fi => stem (Name fi)) <$> l) ->
  fileInfo ∈ l ->
  last_keyed (stem (Name fileInfo)) l = Some fileInfo.
Proof.
  unfold last_keyed. induction l as [|a l IH]; intros Hnodup Hin.
  - by apply elem_of_nil in Hin.
  - rewrite fmap_cons in Hnodup. apply NoDup_cons in Hnodup as [Ha Hnodup].
    rewrite filter_cons. apply elem_of_cons in Hin as [->|Hin].
    + destruct (decide (stem (Name a) = stem (Name a))); [|done].
      destruct (filter _ l) as [|x l'] eqn:Ef; [done|].
      assert (x ∈ filter (fun fi => stem (Name fi) = stem (Name a)) l) as Hx
        by (rewrite Ef; by left).
      apply list_elem_of_filter in Hx as [Hkey Hx]. destruct Ha.
      apply list_elem_of_fmap. by exists x.
    + destruct (decide (stem (Name a) = stem (Name fileInfo))) as [Hkey|Hkey];
        [|by apply IH].
      destruct Ha. apply list_elem_of_fmap. by exists fileInfo.
Qed.

(** The first testable property of the annotation parser holds as it is
    worded on the listings whose annotation files are plain (ASCII, their
    white space being spaces and newlines) and have distinct keys. *)
Lemma parseFolder_returns_fields (dir : string) (filesInfo : list FileInfo) :
  ioutil_ReadDir W dir = Ok filesInfo ->
  annotations filesInfo ≠ [] ->
  (forall fileInfo, fileInfo ∈ annotations filesInfo ->
     exists content,
       ioutil_ReadFile W (file_path dir (Name fileInfo)) = Ok content /\
       plain content = true /\
       is_Some (mapM (float_of_token W) (spec_fields content))) ->
  NoDup ((fun fileInfo => stem (Name fileInfo)) <$> annotations filesInfo) ->
  exists targets,
    parseFolder W dir = (Some targets, None) /\
    dom targets =
      list_to_set ((fun fileInfo => stem (Name fileInfo)) <$> annotations filesInfo) /\
    forall fileInfo, fileInfo ∈ annotations filesInfo ->
      targets !! stem (Name fileInfo) = file_fields_floats W dir fileInfo.
Proof.
  intros Hdir Hsome Hall Hnodup.
  assert (forall fileInfo, fileInfo ∈ annotations filesInfo ->
            file_floats W dir fileInfo = file_fields_floats W dir fileInfo /\
            is_Some (file_floats W dir fileInfo)) as Hsame.
  { intros fi Hfi. destruct (Hall fi Hfi) as (content & Hread & Hplain & Hfloats).
    unfold file_floats, file_fields_floats. rewrite Hread.
    by rewrite (tokens_are_fields content Hplain). }
  destruct (parseFolder_ok W dir filesInfo Hdir Hsome) as (targets & Hret & Hlook).
  { intros fi Hfi. by apply Hsame. }
  exists targets. split; [done|]. split.
  - apply set_eq. intros k.
    rewrite elem_of_dom, elem_of_list_to_set, list_elem_of_fmap, Hlook.
    split.
    + intros [vs Hvs].
      destruct (last_keyed k (annotations filesInfo)) as [fi|] eqn:El; [|done].
      apply last_keyed_Some in El as [Hin Hk]. by exists fi.
    + intros (fi & -> & Hin).
      rewrite (last_keyed_unique _ fi Hnodup Hin). simpl. by apply Hsame.
  - intros fi Hfi. rewrite Hlook, (last_keyed_unique _ fi Hnodup Hfi). simpl.
    by apply Hsame.
Qed.
End BlankFiles.

(** ** Facts about a run *)

Section RunFacts.
Context {float64 float32 : Type}.
Variable W : World float64 float32.
Variable fl : Flags.
Implicit Type t : list (@event float32).

Lemma bind_run {A B} (f : A -> M float32 B) (t : list event) (a : A) :
  (t, Some a) ≫= f = (t ++ fst (f a), snd (f a)).
Proof. reflexivity. Qed.

Lemma bind_return {A B} (f : A -> M float32 B) (t : list event) :
  (t, None) ≫= f = (t, None).
Proof. reflexivity. Qed.

Lemma head_rate_S (iter : nat) : head_rate (S iter) = spec_rate iter.
Proof. reflexivity. Qed.

Lemma reschedule_head (iter : nat) :
  exists t, reschedule (head_rate iter) iter = (t, Some (spec_rate iter)) /\
    step_rates t = [] /\ images_loaded t = [] /\ work_done t = [] /\ reports t = [].
Proof.
  unfold reschedule, head_rate, spec_rate.
  destruct (Nat.eqb_spec iter 15) as [->|H15];
    [eexists; split; [reflexivity|done]|].
  destruct (Nat.eqb_spec iter 150) as [->|H150];
    [eexists; split; [reflexivity|done]|].
  exists []. split; [|done]. simpl. do 2 f_equal.
  destruct (Nat.leb_spec iter 15), (Nat.ltb_spec iter 15); try lia; [done|].
  destruct (Nat.leb_spec iter 150), (Nat.ltb_spec iter 150); try lia; done.
Qed.

(** One pass of the body when nothing fatal happens. *)
Lemma train_body_runs (labeledData : gmap string (list float32))
    (i : string) (iter : nat) :
  sample_runs W fl labeledData iter i ->
  exists t,
    train_body W fl labeledData i (head_rate iter) iter = (t, Some (spec_rate iter)) /\
    step_rates t = [spec_rate iter] /\
    images_loaded t = [image_of_key fl i] /\
    work_done t = [Run; Step] /\
    reports t = step_report W iter.
Proof.
  intros (imgf32 & Himg & Htarget & Hlet & Hrun).
  destruct (reschedule_head iter) as (tr & Hres & Hr1 & Hr2 & Hr3 & Hr4).
  unfold train_body. rewrite Himg. cbn. rewrite Htarget. cbn.
  rewrite Hlet. cbn. rewrite Hrun. cbn. rewrite Hres. cbn.
  unfold step_report.
  destruct (solver_Step W (spec_rate iter) iter) as [e|].
  - eexists. split; [reflexivity|]. simpl.
    unfold step_rates, images_loaded, work_done, reports in *.
    rewrite !omap_app, Hr1, Hr2, Hr3, Hr4. done.
  - eexists. split; [reflexivity|]. simpl.
    unfold step_rates, images_loaded, work_done, reports in *.
    rewrite !omap_app, Hr1, Hr2, Hr3, Hr4. done.
Qed.

(** One pass of the body when the image, the target, the binding or the
    execution fails: the failure is reported and [main] returns. *)
Lemma train_body_fails (labeledData : gmap string (list float32))
    (i : string) (solver : Q) (iter : nat) (format : string) (e : error) :
  sample_fails W fl labeledData iter i format e ->
  exists pre,
    train_body W fl labeledData i solver iter = (pre ++ [Printf format [VStr e]], None) /\
    step_rates pre = [] /\
    images_loaded pre = [image_of_key fl i] /\
    reports pre = [].
Proof.
  unfold train_body.
  intros [[Himg ->]|(imgf32 & Himg & [[Htarget ->]|[Htarget [[Hlet ->]|(Hlet & Hrun & ->)]]])];
    rewrite Himg; cbn; try (rewrite Htarget; cbn); try (rewrite Hlet; cbn);
    try (rewrite Hrun; cbn).
  - by exists [Call (C_GetFloat32Image (image_of_key fl i) imgHeight imgWidth)].
  - by eexists [_; _].
  - by eexists [_; _; _; _].
  - by eexists [_; _; _; _; _].
Qed.

Lemma sample_dichotomy (labeledData : gmap string (list float32))
    (i : string) (iter : nat) :
  sample_runs W fl labeledData iter i \/
  exists format e, sample_fails W fl labeledData iter i format e.
Proof.
  unfold sample_runs, sample_fails.
  destruct (yologo_GetFloat32Image W (image_of_key fl i) imgHeight imgWidth)
    as [imgf32|e] eqn:Himg; [|right; exists fmt_image, e; by left].
  destruct (model_SetTarget W (index_map labeledData i) iter) as [e|] eqn:Htarget;
    [right; exists fmt_target, e; right; exists imgf32; split; [done|by left]|].
  destruct (gorgonia_Let W imgf32 iter) as [e|] eqn:Hlet;
    [right; exists fmt_let, e; right; exists imgf32; split; [done|];
     right; split; [done|by left]|].
  destruct (tm_RunAll W iter) as [e|] eqn:Hrun;
    [right; exists fmt_run, e; right; exists imgf32; split; [done|];
     right; split; [done|]; right; done|].
  left. by exists imgf32.
Qed.

(** The loop over [keys1 ++ keys2] when nothing fatal happens on
    [keys1]: the passes over [keys1], then the loop over [keys2]. *)
Lemma train_loop_prefix (labeledData : gmap string (list float32))
    (keys1 keys2 : list string) (iter : nat) :
  (forall j i, keys1 !! j = Some i -> sample_runs W fl labeledData (iter + j) i) ->
  exists t,
    train_loop W fl labeledData (keys1 ++ keys2) (head_rate iter) iter =
      (t ++ fst (train_loop W fl labeledData keys2
                   (head_rate (iter + length keys1)) (iter + length keys1)),
       snd (train_loop W fl labeledData keys2
              (head_rate (iter + length keys1)) (iter + length keys1))) /\
    step_rates t = spec_rate <$> seq iter (length keys1) /\
    images_loaded t = image_of_key fl <$> keys1 /\
    work_done t = concat (replicate (length keys1) [Run; Step]) /\
    reports t = step_reports W iter (length keys1).
Proof.
  revert iter. induction keys1 as [|i keys1 IH]; intros iter Hruns.
  - exists []. simpl. rewrite Nat.add_0_r. by destruct (train_loop _ _ _ _ _ _).
  - destruct (train_body_runs labeledData i iter) as (tb & Hb & Hb1 & Hb2 & Hb3 & Hb4).
    { specialize (Hruns 0 i eq_refl). by rewrite Nat.add_0_r in Hruns. }
    destruct (IH (S iter)) as (t & Ht & Ht1 & Ht2 & Ht3 & Ht4).
    { intros j i' Hj. specialize (Hruns (S j) i' Hj).
      by rewrite Nat.add_succ_r in Hruns. }
    exists (tb ++ t). simpl train_loop. rewrite Hb, bind_run, <- head_rate_S, Ht.
    simpl length. rewrite !Nat.add_succ_r. simpl.
    split; [by rewrite app_assoc|].
    unfold step_rates, images_loaded, work_done, reports, step_reports in *.
    rewrite !omap_app, Hb1, Hb2, Hb3, Hb4, Ht1, Ht2, Ht3, Ht4. done.
Qed.

Lemma train_loop_runs (labeledData : gmap string (list float32))
    (keys : list string) :
  (forall j i, keys !! j = Some i -> sample_runs W fl labeledData j i) ->
  exists t,
    train_loop W fl labeledData keys rate_initial 0 = (t, Some tt) /\
    step_rates t = spec_rate <$> seq 0 (length keys) /\
    images_loaded t = image_of_key fl <$> keys /\
    work_done t = concat (replicate (length keys) [Run; Step]) /\
    reports t = step_reports W 0 (length keys).
Proof.
  intros Hruns.
  destruct (train_loop_prefix labeledData keys [] 0 Hruns) as (t & Ht & Hobs).
  exists t. split; [|done].
  rewrite app_nil_r in Ht. change (head_rate 0) with rate_initial in Ht.
  rewrite Ht. simpl. by rewrite app_nil_r.
Qed.

(** The loop that meets a fatal failure at the key of index [n]. *)
Lemma train_loop_fails (labeledData : gmap string (list float32))
    (keys : list string) (n : nat) (i : string) (format : string) (e : error) :
  keys !! n = Some i ->
  (forall j i', j < n -> keys !! j = Some i' -> sample_runs W fl labeledData j i') ->
  sample_fails W fl labeledData n i format e ->
  exists pre,
    train_loop W fl labeledData keys rate_initial 0 =
      (pre ++ [Printf format [VStr e]], None) /\
    step_rates pre = spec_rate <$> seq 0 n /\
    images_loaded pre = image_of_key fl <$> take (S n) keys /\
    reports pre = step_reports W 0 n.
Proof.
  intros Hn Hbefore Hfails.
  pose proof (take_drop_middle keys n i Hn) as Hsplit.
  assert (length (take n keys) = n) as Hlen.
  { apply length_take_le. apply lookup_lt_Some in Hn. lia. }
  destruct (train_loop_prefix labeledData (take n keys) (i :: drop (S n) keys) 0)
    as (t & Ht & Ht1 & Ht2 & Ht3 & Ht4).
  { intros j i' Hj. apply lookup_take_Some in Hj as [Hj Hlt]. by apply Hbefore. }
  rewrite Hsplit, Hlen in Ht. change (head_rate 0) with rate_initial in Ht.
  destruct (train_body_fails labeledData i (head_rate n) n format e Hfails)
    as (pb & Hb & Hb1 & Hb2 & Hb3).
  simpl in Ht. rewrite Hb in Ht. rewrite bind_return in Ht. simpl in Ht.
  exists (t ++ pb). rewrite Ht. split; [by rewrite app_assoc|].
  unfold step_rates, images_loaded, work_done, reports, step_reports in *.
  rewrite !omap_app, Hb1, Hb2, Hb3, Ht1, Ht2, Ht4, Hlen, !app_nil_r.
  split; [done|]. split; [|done].
  by rewrite (take_S_r keys n i Hn), fmap_app.
Qed.

Lemma parseFolder_result (dir : string) :
  (exists e, parseFolder W dir = (None, Some e)) \/
  (exists targets, parseFolder W dir = (Some targets, None)).
Proof.
  unfold parseFolder.
  destruct (ioutil_ReadDir W dir) as [filesInfo|e]; [|left; by exists e].
  destruct (parse_files W dir filesInfo ∅) as [targets|e]; [|left; by exists e].
  destruct (size targets =? 0); [left|right]; by eexists.
Qed.

(** A training run that reaches the loop: the prelude, the loop, and the
    deferred [Close]. *)
Lemma main_training (labeledData : gmap string (list float32)) :
  training_starts W fl labeledData ->
  main W fl =
    ((training_prelude fl) ++
       fst (train_loop W fl labeledData (range_keys W labeledData) rate_initial 0) ++
       [Call C_Close],
     snd (train_loop W fl labeledData (range_keys W labeledData) rate_initial 0)).
Proof.
  intros (Hbuilt & Hmode & Hparse & Hact & Hcat & Hsum & Hgrad & Hcomp).
  unfold model_built in Hbuilt. unfold main. rewrite Hbuilt, Hmode. cbn.
  unfold training. rewrite Hparse, Hact, Hcat, Hsum, Hgrad, Hcomp. cbn.
  by destruct (train_loop _ _ _ _ _ _).
Qed.

Lemma omap_prints {B} (f : @event float32 -> option B) (dets : list Detection) :
  (forall d, f (Println [VDet d]) = None) ->
  omap f (map (fun d => Println [VDet d]) dets) = [].
Proof.
  intros Hf. induction dets as [|d dets IH]; [done|].
  simpl. by rewrite Hf.
Qed.

(** Optimizer steps are taken in a training run that reaches the loop,
    and in no other. *)
Lemma main_steps_only_in_loop :
  (exists labeledData, training_starts W fl labeledData) \/
  step_rates (fst (main W fl)) = [].
Proof.
  unfold training_starts, model_built, main.
  destruct (yologo_NewYoloV3 W _ _ _ _ _) as [e|]; [by right|]. cbn.
  destruct (decide (strings_ToLower W (modeStr fl) = "detector")) as [Hd|Hd].
  { right. unfold detector.
    destruct (yologo_GetFloat32Image W _ _ _) as [img|e]; [|done]. cbn.
    destruct (gorgonia_Let W _ _) as [e|]; [done|]. cbn.
    destruct (tm_RunAll W _) as [e|]; [done|]. cbn.
    destruct (model_ProcessOutput W _ _ _) as [dets|e]; [|done]. cbn.
    by rewrite omap_app, omap_prints. }
  destruct (decide (strings_ToLower W (modeStr fl) = "training")) as [Ht|Ht];
    [|by right].
  unfold training.
  destruct (parseFolder_result (trainingFolder fl)) as [[e He]|[targets He]];
    rewrite He; [by right|]. cbn.
  destruct (model_ActivateTrainingMode W) as [e|]; [by right|]. cbn.
  destruct (gorgonia_Concat W) as [e|]; [by right|]. cbn.
  destruct (gorgonia_Sum W) as [e|]; [by right|]. cbn.
  destruct (gorgonia_Grad W) as [e|]; [by right|]. cbn.
  destruct (gorgonia_Compile W) as [e|]; [by right|]. cbn.
  left. by exists targets.
Qed.

(** Whatever happens in the loop: it takes [n] steps, at the rates of the
    schedule, and loads the images of the first [n] keys, or of the first
    [n + 1] when the pass over the next key fails; no key is taken
    twice. *)
Lemma train_loop_progress (labeledData : gmap string (list float32))
    (keys : list string) (iter : nat) :
  exists n n',
    n <= n' <= length keys /\ n' <= S n /\
    step_rates (fst (train_loop W fl labeledData keys (head_rate iter) iter)) =
      spec_rate <$> seq iter n /\
    images_loaded (fst (train_loop W fl labeledData keys (head_rate iter) iter)) =
      image_of_key fl <$> take n' keys.
Proof.
  revert iter. induction keys as [|i keys IH]; intros iter.
  - exists 0, 0. split; [simpl; lia|]. split; [lia|]. by split.
  - simpl train_loop.
    destruct (sample_dichotomy labeledData i iter) as [Hruns|(format & e & Hfails)].
    + destruct (train_body_runs labeledData i iter Hruns) as (tb & -> & Hb1 & Hb2 & _).
      destruct (IH (S iter)) as (n & n' & Hn & Hn' & Hrates & Himages).
      exists (S n), (S n'). split; [simpl; lia|]. split; [lia|].
      rewrite bind_run. cbn [fst snd]. unfold step_rates, images_loaded in *.
      rewrite !omap_app, Hb1, Hb2. rewrite head_rate_S in Hrates, Himages.
      by rewrite Hrates, Himages.
    + destruct (train_body_fails labeledData i (head_rate iter) iter format e Hfails)
        as (pb & -> & Hb1 & Hb2 & _).
      exists 0, 1. split; [simpl; lia|]. split; [lia|].
      rewrite bind_return. cbn [fst snd]. unfold step_rates, images_loaded in *.
      by rewrite !omap_app, Hb1, Hb2.
Qed.

Lemma step_reports_nil (iter n : nat) :
  (forall j, iter <= j < iter + n -> solver_Step W (spec_rate j) j = None) ->
  step_reports W iter n = [].
Proof.
  revert iter. induction n as [|n IH]; intros iter Hsteps; [done|].
  unfold step_reports. simpl. unfold step_report at 1.
  rewrite Hsteps by lia. apply IH. intros j Hj. apply Hsteps. lia.
Qed.

(** C4: in every run, the optimizer step that follows [n] completed
    iterations is taken at the rate of the schedule: 1e-5 while fewer
    than 15 iterations are done, 1e-6 from 15 completed iterations on,
    1e-7 from 150 on.  The breakpoints are the constants 15 and 150,
    whatever the number of samples; a training run in which no sample
    fails takes one step per sample. *)
Theorem learning_rate_follows_schedule :
  (exists n, step_rates (fst (main W fl)) = spec_rate <$> seq 0 n) /\
  (forall labeledData,
     training_starts W fl labeledData ->
     (forall j i, range_keys W labeledData !! j = Some i ->
        sample_runs W fl labeledData j i) ->
     step_rates (fst (main W fl)) =
       spec_rate <$> seq 0 (length (range_keys W labeledData))) /\
  spec_rate 14 = rate_initial /\ spec_rate 15 = rate_after_15 /\
  spec_rate 149 = rate_after_15 /\ spec_rate 150 = rate_after_150.
Proof.
  split; [|split; [|done]].
  - destruct main_steps_only_in_loop as [[labeledData Hstarts]|Hnone];
      [|exists 0; by rewrite Hnone].
    rewrite (main_training labeledData Hstarts). cbn [fst snd].
    destruct (train_loop_progress labeledData (range_keys W labeledData) 0)
      as (n & _ & _ & _ & Hn & _).
    exists n. change (head_rate 0) with rate_initial in Hn.
    unfold step_rates in *. rewrite !omap_app, Hn. simpl. by rewrite app_nil_r.
  - intros labeledData Hstarts Hruns.
    rewrite (main_training labeledData Hstarts). cbn [fst snd].
    destruct (train_loop_runs labeledData _ Hruns) as (t & -> & Ht1 & _).
    cbn [fst snd]. unfold step_rates in *. rewrite !omap_app, Ht1. simpl. by rewrite app_nil_r.
Qed.

(** C5: in a training run that reaches the loop, a failure of the
    optimizer step is reported and the loop goes on: when the image, the
    target, the binding and the execution succeed at every sample, every
    sample is executed and stepped, each failed step is reported, and
    [main] runs to its end.  A failure of the image load, of the target,
    of the binding or of the execution at the sample of index [n] is
    reported and ends the run there: the report is the last thing the run
    does before the deferred [Close], no sample after that one is loaded,
    and [n] steps were taken. *)
Theorem only_step_failure_is_survived (labeledData : gmap string (list float32)) :
  training_starts W fl labeledData ->
  ((forall j i, range_keys W labeledData !! j = Some i ->
      sample_runs W fl labeledData j i) ->
   snd (main W fl) = Some tt /\
   work_done (fst (main W fl)) =
     concat (replicate (length (range_keys W labeledData)) [Run; Step]) /\
   forall j e,
     j < length (range_keys W labeledData) ->
     solver_Step W (spec_rate j) j = Some e ->
     (fmt_step, [VStr e]) ∈ reports (fst (main W fl))) /\
  (forall n i format e,
     range_keys W labeledData !! n = Some i ->
     (forall j i', j < n -> range_keys W labeledData !! j = Some i' ->
        sample_runs W fl labeledData j i') ->
     sample_fails W fl labeledData n i format e ->
     snd (main W fl) = None /\
     (exists pre, fst (main W fl) = pre ++ [Printf format [VStr e]; Call C_Close]) /\
     images_loaded (fst (main W fl)) =
       image_of_key fl <$> take (S n) (range_keys W labeledData) /\
     step_rates (fst (main W fl)) = spec_rate <$> seq 0 n).
Proof.
  intros Hstarts. rewrite (main_training labeledData Hstarts). cbn [fst snd].
  split.
  - intros Hruns.
    destruct (train_loop_runs labeledData _ Hruns) as (t & -> & _ & _ & Ht3 & Ht4).
    cbn [fst snd]. split; [done|]. unfold work_done, reports in *.
    rewrite !omap_app, Ht3, Ht4. simpl. rewrite !app_nil_r. split; [done|].
    intros j e Hj Hstep. apply list_elem_of_In, in_flat_map.
    exists j. split; [apply in_seq; lia|].
    unfold step_report. rewrite Hstep. by left.
  - intros n i format e Hn Hbefore Hfails.
    destruct (train_loop_fails labeledData _ n i format e Hn Hbefore Hfails)
      as (pre & -> & Hp1 & Hp2 & _).
    cbn [fst snd]. split; [done|]. split.
    + exists ((training_prelude fl) ++ pre). by rewrite <- !app_assoc.
    + unfold step_rates, images_loaded in *.
      rewrite !omap_app, Hp1, Hp2. simpl. by rewrite !app_nil_r.
Qed.

(** C6: a training run that reaches the loop passes once over the keys
    of the annotation map, in the order of the range statement: no key
    is taken twice and the images are loaded in that order, as far as the
    run gets.  When nothing fatal happens it gets to the end: the image
    of every key is loaded once, and each sample is one execution of the
    graph followed by one optimizer step.  With a map of one entry that
    is one execution and one step, and when the step succeeds nothing is
    reported. *)
Theorem trainer_visits_each_key_once (labeledData : gmap string (list float32)) :
  training_starts W fl labeledData ->
  range_keys W labeledData ≡ₚ elements (dom labeledData) ->
  NoDup (range_keys W labeledData) /\
  (forall i, i ∈ range_keys W labeledData <-> is_Some (labeledData !! i)) /\
  (exists n,
     n <= size labeledData /\
     images_loaded (fst (main W fl)) =
       image_of_key fl <$> take n (range_keys W labeledData) /\
     length (step_rates (fst (main W fl))) <= n) /\
  ((forall j i, range_keys W labeledData !! j = Some i ->
      sample_runs W fl labeledData j i) ->
   images_loaded (fst (main W fl)) = image_of_key fl <$> range_keys W labeledData /\
   work_done (fst (main W fl)) = concat (replicate (size labeledData) [Run; Step]) /\
   length (step_rates (fst (main W fl))) = size labeledData /\
   (size labeledData = 1 -> work_done (fst (main W fl)) = [Run; Step]) /\
   ((forall j, j < size labeledData -> solver_Step W (spec_rate j) j = None) ->
    reports (fst (main W fl)) = [] /\ snd (main W fl) = Some tt)).
Proof.
  intros Hstarts Hperm.
  assert (length (range_keys W labeledData) = size labeledData) as Hlen.
  { rewrite Hperm. by rewrite <- size_dom. }
  rewrite (main_training labeledData Hstarts). cbn [fst snd].
  split; [rewrite Hperm; apply NoDup_elements|].
  split; [intros i; by rewrite Hperm, elem_of_elements, elem_of_dom|].
  split.
  - destruct (train_loop_progress labeledData (range_keys W labeledData) 0)
      as (n & n' & Hn & Hn' & Hrates & Himages).
    change (head_rate 0) with rate_initial in Hrates, Himages.
    exists n'. split; [lia|].
    unfold step_rates, images_loaded in *.
    rewrite !omap_app, Hrates, Himages. simpl. rewrite !app_nil_r.
    split; [done|]. rewrite length_fmap, length_seq. lia.
  - intros Hruns.
    destruct (train_loop_runs labeledData _ Hruns) as (t & -> & Ht1 & Ht2 & Ht3 & Ht4).
    cbn [fst snd]. unfold step_rates, images_loaded, work_done, reports in *.
    rewrite !omap_app, Ht1, Ht2, Ht3, Ht4, Hlen. simpl. rewrite !app_nil_r.
    split; [done|]. split; [done|].
    split; [by rewrite length_fmap, length_seq|].
    split; [by intros ->|].
    intros Hsteps. split; [|done].
    apply step_reports_nil. intros j Hj. apply Hsteps. lia.
Qed.
End RunFacts.

(** ** Facts about the post-processing *)

Section PostProcessFacts.
Variable iou : Detection -> Detection -> Q.

Lemma survives_apart (iouThr : Q) (kept : list Detection) (d : Detection) :
  survives iou iouThr kept d = true <-> Forall (fun k => apart iou iouThr k d) kept.
Proof.
  unfold survives, apart. induction kept as [|k kept IH]; simpl.
  - split; [constructor|done].
  - rewrite andb_true_iff, IH, Forall_cons. apply and_iff_compat_r.
    unfold same_class, Qltb. rewrite negb_true_iff, andb_false_iff.
    rewrite <- not_true_iff_false, <- not_true_iff_false, String.eqb_eq, bool_decide_eq_true.
    split; [intros [H|H] ?; done|].
    intros H. destruct (decide (det_class k = det_class d)); auto.
Qed.

Lemma ordpairs_snoc {A} (R : A -> A -> Prop) (l : list A) (d : A) :
  ForallOrdPairs R l -> Forall (fun k => R k d) l -> ForallOrdPairs R (l ++ [d]).
Proof.
  induction 1 as [|k l Hk Hl IH]; intros Hd; simpl.
  - repeat constructor.
  - apply Forall_cons in Hd as [Hkd Hd]. constructor.
    + apply Forall_app. split; [done|]. by constructor.
    + by apply IH.
Qed.

Lemma ordpairs_lookup {A} (R : A -> A -> Prop) (l : list A) (i j : nat) (a b : A) :
  ForallOrdPairs R l -> i < j -> l !! i = Some a -> l !! j = Some b -> R a b.
Proof.
  intros Hl. revert i j. induction Hl as [|k l Hk Hl IH]; intros i j Hij Hi Hj.
  - done.
  - destruct j as [|j]; [lia|]. destruct i as [|i]; simpl in *.
    + injection Hi as ->. rewrite Forall_forall in Hk. apply Hk.
      by apply list_elem_of_lookup_2 in Hj.
    + apply (IH i j); [lia|done..].
Qed.

(** What is kept stays pairwise apart. *)
Lemma suppress_apart (iouThr : Q) (cands kept : list Detection) :
  ForallOrdPairs (apart iou iouThr) kept ->
  ForallOrdPairs (apart iou iouThr) (suppress iou iouThr cands kept).
Proof.
  revert kept. induction cands as [|d cands IH]; intros kept Hkept; simpl; [done|].
  destruct (survives iou iouThr kept d) eqn:Hs; [|by apply IH].
  apply IH, ordpairs_snoc; [done|]. by apply survives_apart.
Qed.

Lemma suppress_subset (iouThr : Q) (cands kept : list Detection) (d : Detection) :
  d ∈ suppress iou iouThr cands kept -> d ∈ kept \/ d ∈ cands.
Proof.
  revert kept. induction cands as [|c cands IH]; intros kept Hd; simpl in *; [by left|].
  destruct (survives iou iouThr kept c).
  - apply IH in Hd as [Hd|Hd]; [|right; by right].
    apply elem_of_app in Hd as [Hd|Hd]; [by left|].
    apply list_elem_of_singleton in Hd as ->. right. by left.
  - apply IH in Hd as [Hd|Hd]; [by left|right; by right].
Qed.

Lemma suppress_keeps (iouThr : Q) (cands kept : list Detection) (d : Detection) :
  d ∈ kept -> d ∈ suppress iou iouThr cands kept.
Proof.
  revert kept. induction cands as [|c cands IH]; intros kept Hd; simpl; [done|].
  destruct (survives iou iouThr kept c); apply IH; [|done].
  apply elem_of_app. by left.
Qed.

(** A candidate is kept, or a kept one that ranks before it overlaps
    it. *)
Lemma suppress_favours_higher (iouThr : Q) (cands kept : list Detection)
    (d : Detection) :
  StronglySorted higher cands ->
  (forall k c, k ∈ kept -> c ∈ cands -> higher k c) ->
  d ∈ cands ->
  d ∈ suppress iou iouThr cands kept \/
  exists k, k ∈ suppress iou iouThr cands kept /\
    det_class k = det_class d /\ (iouThr < iou k d)%Q /\ higher k d.
Proof.
  revert kept. induction cands as [|c cands IH]; intros kept Hsorted Hkept Hd.
  - by apply elem_of_nil in Hd.
  - apply StronglySorted_inv in Hsorted as [Hsorted Hc]. simpl.
    destruct (survives iou iouThr kept c) eqn:Hs.
    + apply elem_of_cons in Hd as [->|Hd].
      * left. apply suppress_keeps, elem_of_app. right. by left.
      * apply IH; [done| |done].
        intros k c' [Hk|Hk]%elem_of_app Hc'.
        -- apply Hkept; [done|by right].
        -- apply list_elem_of_singleton in Hk as ->.
           rewrite Forall_forall in Hc. by apply Hc.
    + apply elem_of_cons in Hd as [->|Hd].
      * right. apply not_true_iff_false in Hs. rewrite survives_apart in Hs.
        apply not_Forall_Exists in Hs; [|intros k; unfold apart; apply _].
        apply Exists_exists in Hs as (k & Hk & Hover).
        unfold apart in Hover.
        destruct (decide (det_class k = det_class c)) as [Hclass|Hclass];
          [|by destruct Hover].
        destruct (decide (iouThr < iou k c)%Q) as [Hiou|Hiou];
          [|by destruct Hover].
        exists k. split; [by apply suppress_keeps|].
        split; [done|]. split; [done|]. apply Hkept; [done|by left].
      * apply IH; [done| |done].
        intros k c' Hk Hc'. apply Hkept; [done|by right].
Qed.

Global Instance higher_trans : Transitive higher.
Proof. intros a b c Hab Hbc. unfold higher in *. by apply (Qle_trans _ (det_score b)). Qed.

Global Instance higher_total : Total higher.
Proof.
  intros a b. unfold higher.
  destruct (Qlt_le_dec (det_score a) (det_score b)) as [H|H]; [right|left]; [|done].
  by apply Qlt_le_weak.
Qed.

(** The post-processing of the specification does what the specification
    asks of it. *)
Lemma spec_ProcessOutput_sound (raw : list Detection) (classes : list string)
    (scoreThr iouThr : Q) (dets : list Detection) :
  spec_ProcessOutput iou raw classes scoreThr iouThr = Ok dets ->
  Forall (fun d => d ∈ raw /\ ¬ (det_score d < scoreThr)%Q) dets /\
  ForallOrdPairs (apart iou iouThr) dets /\
  (forall d, d ∈ raw -> ¬ (det_score d < scoreThr)%Q ->
     d ∈ dets \/
     exists k, k ∈ dets /\ det_class k = det_class d /\
       (iouThr < iou k d)%Q /\ (det_score d <= det_score k)%Q).
Proof.
  unfold spec_ProcessOutput. intros [= <-]. split; [|split].
  - apply Forall_forall. intros d Hd.
    apply suppress_subset in Hd as [Hd|Hd]; [by apply elem_of_nil in Hd|].
    rewrite merge_sort_Permutation in Hd.
    by apply list_elem_of_filter in Hd as [? ?].
  - apply suppress_apart. constructor.
  - intros d Hraw Hscore.
    apply suppress_favours_higher.
    + apply StronglySorted_merge_sort; apply _.
    + intros k c Hk. by apply elem_of_nil in Hk.
    + rewrite merge_sort_Permutation. by apply list_elem_of_filter.
Qed.
End PostProcessFacts.

(** ** Facts about the detections printed and about the dispatch *)

Section DispatchFacts.
Context {float64 float32 : Type}.
Variable W : World float64 float32.
Variable fl : Flags.

Lemma printed_dets_app (t1 t2 : list (@event float32)) :
  printed_dets (t1 ++ t2) = printed_dets t1 ++ printed_dets t2.
Proof. apply omap_app. Qed.

Lemma train_body_prints_no_detection (labeledData : gmap string (list float32))
    (i : string) (solver : Q) (iter : nat) :
  printed_dets (fst (train_body W fl labeledData i solver iter)) = [].
Proof.
  unfold train_body.
  destruct (yologo_GetFloat32Image W _ _ _) as [imgf32|e]; [|done]. cbn.
  destruct (model_SetTarget W _ _) as [e|]; [done|]. cbn.
  destruct (gorgonia_Let W _ _) as [e|]; [done|]. cbn.
  destruct (tm_RunAll W _) as [e|]; [done|]. cbn.
  unfold reschedule.
  destruct (iter =? 15), (iter =? 150); cbn;
    by destruct (solver_Step W _ _).
Qed.

Lemma train_loop_prints_no_detection (labeledData : gmap string (list float32))
    (keys : list string) (solver : Q) (iter : nat) :
  printed_dets (fst (train_loop W fl labeledData keys solver iter)) = [].
Proof.
  revert solver iter. induction keys as [|i keys IH]; intros solver iter; [done|].
  simpl train_loop.
  pose proof (train_body_prints_no_detection labeledData i solver iter) as Hb.
  destruct (train_body W fl labeledData i solver iter) as [tb [solver'|]].
  - rewrite bind_run. cbn [fst snd] in *.
    by rewrite printed_dets_app, Hb, IH.
  - by rewrite bind_return.
Qed.

Lemma omap_printed (dets : list Detection) :
  printed_dets (float32 := float32) (map (fun d => Println [VDet d]) dets) = dets.
Proof. induction dets as [|d dets IH]; [done|]. simpl. by rewrite IH. Qed.

(** The detections printed are those that [ProcessOutput] returned, in
    its order, when the run prints any. *)
Lemma main_prints :
  printed_dets (fst (main W fl)) = [] \/
  exists dets,
    model_ProcessOutput W cocoClasses scoreThreshold iouThreshold = Ok dets /\
    printed_dets (fst (main W fl)) = dets.
Proof.
  destruct (main_steps_only_in_loop W fl) as [[labeledData Hstarts]|_].
  { left. rewrite (main_training W fl labeledData Hstarts). cbn [fst snd].
    by rewrite !printed_dets_app, train_loop_prints_no_detection. }
  unfold main.
  destruct (yologo_NewYoloV3 W _ _ _ _ _) as [e|]; [by left|]. cbn.
  destruct (decide (strings_ToLower W (modeStr fl) = "detector")) as [Hd|Hd].
  { unfold detector.
    destruct (yologo_GetFloat32Image W _ _ _) as [img|e]; [|by left]. cbn.
    destruct (gorgonia_Let W _ _) as [e|]; [by left|]. cbn.
    destruct (tm_RunAll W _) as [e|]; [by left|]. cbn.
    destruct (model_ProcessOutput W _ _ _) as [dets|e]; [|by left]. cbn.
    right. exists dets. split; [done|].
    change (printed_dets (float32 := float32)
              (map (fun d => Println [VDet d]) dets ++ [Call C_Close]) = dets).
    rewrite printed_dets_app, omap_printed. simpl. by rewrite app_nil_r. }
  destruct (decide (strings_ToLower W (modeStr fl) = "training")) as [Ht|Ht];
    [|by left].
  left. unfold training.
  destruct (parseFolder_result W (trainingFolder fl)) as [[e He]|[targets He]];
    rewrite He; [done|]. cbn.
  destruct (model_ActivateTrainingMode W) as [e|]; [done|]. cbn.
  destruct (gorgonia_Concat W) as [e|]; [done|]. cbn.
  destruct (gorgonia_Sum W) as [e|]; [done|]. cbn.
  destruct (gorgonia_Grad W) as [e|]; [done|]. cbn.
  destruct (gorgonia_Compile W) as [e|]; [done|]. cbn.
  match goal with
  | |- omap _ (fst ?L ++ ?c) = [] => change (printed_dets (fst L ++ c) = [])
  end.
  by rewrite printed_dets_app, train_loop_prints_no_detection.
Qed.

(** C7: when [ProcessOutput] is the post-processing that the
    specification describes, over an overlap ratio that does not depend
    on the order of its arguments, no detection that the run prints has a
    score below 0.8, and no two detections that it prints are of the same
    class with an overlap ratio above 0.3. *)
Theorem printed_detections_are_filtered
    (iou : Detection -> Detection -> Q) (raw : list Detection) :
  (forall a b, (iou a b == iou b a)%Q) ->
  model_ProcessOutput W = spec_ProcessOutput iou raw ->
  Forall (fun d => ¬ (det_score d < 8 # 10)%Q) (printed_dets (fst (main W fl))) /\
  forall i j a b,
    printed_dets (fst (main W fl)) !! i = Some a ->
    printed_dets (fst (main W fl)) !! j = Some b ->
    i ≠ j ->
    det_class a = det_class b ->
    ¬ (3 # 10 < iou a b)%Q.
Proof.
  intros Hsym Hmodel.
  destruct main_prints as [->|(dets & Hdets & ->)]; [by split|].
  rewrite Hmodel in Hdets.
  apply spec_ProcessOutput_sound in Hdets as (Hscore & Hapart & _).
  split.
  - eapply Forall_impl; [exact Hscore|]. by intros d [_ ?].
  - intros i j a b Hi Hj Hij Hclass.
    destruct (Nat.lt_total i j) as [Hlt|[->|Hlt]]; [|done|].
    + by apply (ordpairs_lookup _ _ _ _ _ _ Hapart Hlt Hi Hj).
    + rewrite Hsym. by apply (ordpairs_lookup _ _ _ _ _ _ Hapart Hlt Hj Hi).
Qed.

(** C8, as amended: when the mode string selects neither path and the
    model is built, the run builds and prints the model, reports the mode
    as not implemented and returns; it does nothing else.  When the
    construction of the model fails, the run reports that failure and
    returns; the mode is not reported. *)
Theorem unrecognized_mode_is_reported :
  unrecognized W fl ->
  (model_built W fl ->
   main W fl =
     (building fl ++ [Call C_Print; Printf fmt_mode [VStr (modeStr fl)]], None)) /\
  (forall e,
     yologo_NewYoloV3 W 80 boxes leakyCoef (cfg fl) (weights fl) = Some e ->
     main W fl = (building fl ++ [Printf fmt_prepare [VStr e]], None)).
Proof.
  intros [Hd Ht]. unfold model_built, main.
  change (Z.of_nat (length cocoClasses)) with 80%Z. split.
  - intros Hbuilt. rewrite Hbuilt. cbn.
    destruct (decide (strings_ToLower W (modeStr fl) = "detector")); [done|].
    by destruct (decide (strings_ToLower W (modeStr fl) = "training")).
  - by intros e ->.
Qed.

(** C10: every run starts with the construction of the network from the
    cfg and weights paths.  When the construction fails, the run reports
    that failure and returns, whatever the mode string is; when it
    succeeds, the model is printed next, and what depends on the mode
    string comes after. *)
Theorem model_is_built_first :
  (exists rest, fst (main W fl) = building fl ++ rest) /\
  (forall e,
     yologo_NewYoloV3 W 80 boxes leakyCoef (cfg fl) (weights fl) = Some e ->
     main W fl = (building fl ++ [Printf fmt_prepare [VStr e]], None)) /\
  (yologo_NewYoloV3 W 80 boxes leakyCoef (cfg fl) (weights fl) = None ->
   exists rest,
     fst (main W fl) = building fl ++ Call C_Print :: rest /\
     (rest, snd (main W fl)) =
       if decide (strings_ToLower W (modeStr fl) = "detector") then detector W fl
       else if decide (strings_ToLower W (modeStr fl) = "training") then training W fl
       else ([Printf fmt_mode [VStr (modeStr fl)]], None)).
Proof.
  unfold main.
  change (Z.of_nat (length cocoClasses)) with 80%Z.
  destruct (yologo_NewYoloV3 W 80 boxes leakyCoef (cfg fl) (weights fl)) as [e|] eqn:Hb.
  - split; [by eexists|]. split; [by intros e' [= <-]|done].
  - split; [by eexists|]. split; [done|]. intros _.
    match goal with
    | |- context [if decide ?P then ?d else ?r] =>
        exists (fst (if decide P then d else r))
    end.
    split; [reflexivity|].
    destruct (decide (strings_ToLower W (modeStr fl) = "detector"));
      [by destruct (detector W fl)|].
    destruct (decide (strings_ToLower W (modeStr fl) = "training"));
      [by destruct (training W fl)|done].
Qed.
End DispatchFacts.

(** ** The reference world at work *)

Section ReferenceRuns.
Import Reference.

Lemma iou_sym (a b : Detection) : (iou a b == iou b a)%Q.
Proof.
  unfold iou.
  assert (inter (det_box a) (det_box b) = inter (det_box b) (det_box a)) as ->.
  { destruct (det_box a) as [[[ax1 ay1] ax2] ay2], (det_box b) as [[[bx1 by1] bx2] by2].
    unfold inter.
    by rewrite (Z.max_comm ax1), (Z.max_comm ay1), (Z.min_comm ax2), (Z.min_comm ay2). }
  by rewrite (Z.add_comm (area (det_box a))).
Qed.

Lemma training_starts_train (step : Q -> nat -> option error) :
  training_starts (world None grey step) (flags "training" "train") sample1.
Proof. repeat split; vm_compute; reflexivity. Qed.

Lemma training_starts_pair (image : string -> Z -> Z -> result (list Q))
    (step : Q -> nat -> option error) :
  training_starts (world None image step) (flags "training" "pair") pair.
Proof. repeat split; vm_compute; reflexivity. Qed.

(** The two files of [dup] share the key [a]: the one listed last gives
    the value. *)
Example duplicate_key_last_wins :
  parseFolder fine "dup" = (Some {["a" := [2 # 1]]}, None).
Proof. vm_compute. reflexivity. Qed.

(** The file [b.txt] of [bad] holds the token [abc]; the floats of
    [a.txt], read before it, are not returned. *)
Example bad_token_no_partial_map :
  parseFolder fine "bad" =
    (None, Some "strconv.ParseFloat: parsing abc: invalid syntax").
Proof. reflexivity. Qed.

(** A tab does not separate two tokens. *)
Example tab_joins_tokens :
  tokens ("1.0" +:+ String byte_tab "2.0") = ["1.0" +:+ String byte_tab "2.0"] /\
  spec_fields ("1.0" +:+ String byte_tab "2.0") = ["1.0"; "2.0"] /\
  fst (parseFolder fine "tabs") = None.
Proof. repeat split; reflexivity. Qed.

(** The key of a file is cut at the first dot, where its extension starts
    at the last one. *)
Example key_and_extension :
  target_key "img.v2.txt" = "img" /\ filepath_Ext "img.v2.txt" = ".txt" /\
  target_key ".txt" = EmptyString /\ filepath_Ext "notes.txt.bak" = ".bak".
Proof. repeat split; reflexivity. Qed.

(** A run over two samples: the step of the first fails and is
    reported, the image of the second is missing and ends the run. *)
Example step_fails_then_image_fails :
  reports (fst (main (world None (all_but "pair/s2.jpg") steps_fail)
                  (flags "training" "pair"))) =
    [(fmt_step, [VStr "gradient is NaN"]);
     (fmt_image, [VStr "open pair/s2.jpg: no such file or directory"])] /\
  work_done (fst (main (world None (all_but "pair/s2.jpg") steps_fail)
                    (flags "training" "pair"))) = [Run; Step] /\
  snd (main (world None (all_but "pair/s2.jpg") steps_fail)
         (flags "training" "pair")) = None.
Proof. repeat split; vm_compute; reflexivity. Qed.

(** The mode is compared in lower case. *)
Example mode_is_lowered :
  fst (main fine (flags "Training" "train")) = fst (main fine (flags "training" "train")) /\
  fst (main fine (flags "DETECTOR" "train")) = fst (main fine (flags "detector" "train")).
Proof. split; vm_compute; reflexivity. Qed.

(** The scenario of the specification: one annotation file
    [sample1.txt] holding [0.1 0.2 0.3 0.4]. *)
Lemma parseFolder_returns_annotations_witness :
  ioutil_ReadDir fine "train" = Ok [file "sample1.jpg"; file "sample1.txt"] /\
  annotations [file "sample1.jpg"; file "sample1.txt"] = [file "sample1.txt"] /\
  file_floats fine "train" (file "sample1.txt") = Some [1 # 10; 1 # 5; 3 # 10; 2 # 5] /\
  exists targets,
    parseFolder fine "train" = (Some targets, None) /\
    dom targets = {["sample1"]} /\
    targets !! "sample1" = Some [1 # 10; 1 # 5; 3 # 10; 2 # 5].
Proof.
  split; [reflexivity|]. split; [reflexivity|]. split; [reflexivity|].
  destruct (parseFolder_returns_annotations fine "train"
              [file "sample1.jpg"; file "sample1.txt"])
    as (targets & Hret & Hdom & Hlook & _).
  - reflexivity.
  - discriminate.
  - intros fileInfo Hin.
    change (annotations [file "sample1.jpg"; file "sample1.txt"])
      with [file "sample1.txt"] in Hin.
    apply list_elem_of_singleton in Hin as ->. by eexists.
  - exists targets. split; [exact Hret|]. split.
    + rewrite Hdom. vm_compute. reflexivity.
    + rewrite Hlook. reflexivity.
Defined.

(** The first testable property of the annotation parser does not hold
    as it is worded: the floats of [tabs/a.txt] are separated by a tab,
    and [parseFolder] returns an error; the files [a.b.txt] and [a.txt]
    of [dup] share a key, and the floats of the first are not the value
    of its key. *)
Lemma fields_claim_fails :
  ¬ parses_fields_of fine "tabs" /\ ¬ parses_fields_of fine "dup".
Proof.
  split; intros Hclaim.
  - destruct (Hclaim [file "a.txt"]) as (targets & Hret & _).
    + reflexivity.
    + discriminate.
    + intros fileInfo Hin.
      change (annotations [file "a.txt"]) with [file "a.txt"] in Hin.
      apply list_elem_of_singleton in Hin as ->. by eexists.
    + vm_compute in Hret. discriminate.
  - destruct (Hclaim [file "a.b.txt"; file "a.txt"]) as (targets & Hret & _ & Hval).
    + reflexivity.
    + discriminate.
    + intros fileInfo Hin.
      change (annotations [file "a.b.txt"; file "a.txt"])
        with [file "a.b.txt"; file "a.txt"] in Hin.
      apply elem_of_cons in Hin as [->|Hin]; [by eexists|].
      apply list_elem_of_singleton in Hin as ->. by eexists.
    + specialize (Hval (file "a.b.txt")).
      vm_compute in Hret. injection Hret as <-.
      assert (file "a.b.txt" ∈ annotations [file "a.b.txt"; file "a.txt"]) as Hin
        by by left.
      apply Hval in Hin. vm_compute in Hin. discriminate.
Qed.

Lemma parseFolder_rejects_bad_token_witness :
  file_floats fine "bad" (file "a.txt") = Some [1 # 1] /\
  "abc" ∈ tokens "1.0 abc 2.0" /\
  exists err, parseFolder fine "bad" = (None, Some err).
Proof.
  split; [reflexivity|]. split; [by right; left|].
  apply (parseFolder_rejects_bad_token fine "bad" [file "a.txt"; file "b.txt"]
           (file "b.txt") "1.0 abc 2.0" "abc"
           "strconv.ParseFloat: parsing abc: invalid syntax").
  - reflexivity.
  - by right; left.
  - reflexivity.
  - by right; left.
  - reflexivity.
Defined.

Lemma parseFolder_rejects_empty_witness :
  annotations [file "notes.md"; file "txt"; folder "labels.txt"] = [] /\
  parseFolder fine "none" =
    (None,
     Some "Folder 'none' doesn't contain any *.txt files (annotation files for YOLO)").
Proof.
  split; [reflexivity|].
  apply (parseFolder_rejects_empty fine "none"
           [file "notes.md"; file "txt"; folder "labels.txt"]); reflexivity.
Defined.

Lemma blank_file_is_annotation_witness :
  space_only ("  " +:+ nl +:+ String byte_tab " ") /\
  parseFolder fine "blank" = (Some {["blank" := []]}, None).
Proof.
  assert (space_only ("  " +:+ nl +:+ String byte_tab " ")) as Hblank
    by (apply space_only_ascii; reflexivity).
  split; [exact Hblank|].
  apply (blank_file_is_annotation fine "blank"
           [file "blank.txt"; file "notes.md"; folder "old.txt"]
           (file "blank.txt") ("  " +:+ nl +:+ String byte_tab " "));
    [reflexivity..|exact Hblank].
Defined.

(** A folder of 160 samples: 15 steps at 1e-5, 135 at 1e-6, 10 at
    1e-7. *)
Lemma learning_rate_follows_schedule_witness :
  (exists n,
     step_rates (fst (main fine (flags "training" "crowd"))) = spec_rate <$> seq 0 n) /\
  step_rates (fst (main fine (flags "training" "crowd"))) =
    replicate 15 (1 # 100000) ++ replicate 135 (1 # 1000000) ++
    replicate 10 (1 # 10000000).
Proof.
  split.
  - apply (learning_rate_follows_schedule fine (flags "training" "crowd")).
  - vm_compute. reflexivity.
Defined.

(** The step fails at every sample of [pair], and every sample is
    executed; the image of the second sample is missing, and the run ends
    at it after one step. *)
Lemma only_step_failure_is_survived_witness :
  training_starts (world None grey steps_fail) (flags "training" "pair") pair /\
  (snd (main (world None grey steps_fail) (flags "training" "pair")) = Some tt /\
   work_done (fst (main (world None grey steps_fail) (flags "training" "pair"))) =
     [Run; Step; Run; Step] /\
   (fmt_step, [VStr "gradient is NaN"]) ∈
     reports (fst (main (world None grey steps_fail) (flags "training" "pair")))) /\
  (snd (main (world None (all_but "pair/s2.jpg") steps_fine) (flags "training" "pair")) = None /\
   images_loaded
     (fst (main (world None (all_but "pair/s2.jpg") steps_fine) (flags "training" "pair"))) =
     ["pair/s1.jpg"; "pair/s2.jpg"] /\
   step_rates
     (fst (main (world None (all_but "pair/s2.jpg") steps_fine) (flags "training" "pair"))) =
     [1 # 100000]).
Proof.
  split; [apply training_starts_pair|]. split.
  - destruct (only_step_failure_is_survived (world None grey steps_fail)
                (flags "training" "pair") pair (training_starts_pair _ _))
      as [Hsurvives _].
    destruct Hsurvives as (Hret & Hwork & Hreports).
    + intros j i Hj. exists [1 # 2]. repeat split; reflexivity.
    + split; [exact Hret|]. split; [exact Hwork|].
      apply (Hreports 0); [vm_compute; lia|reflexivity].
  - destruct (only_step_failure_is_survived
                (world None (all_but "pair/s2.jpg") steps_fine)
                (flags "training" "pair") pair (training_starts_pair _ _))
      as [_ Hfatal].
    destruct (Hfatal 1 "s2" fmt_image "open pair/s2.jpg: no such file or directory")
      as (Hret & _ & Himages & Hrates).
    + reflexivity.
    + intros j i' Hj Hi'. destruct j as [|j]; [|lia].
      injection Hi' as <-. exists [1 # 2]. repeat split; reflexivity.
    + left. split; reflexivity.
    + split; [exact Hret|]. split; [exact Himages|exact Hrates].
Defined.

(** The scenario of the specification: the folder [train] holds
    [sample1.txt] and [sample1.jpg]. *)
Lemma trainer_visits_each_key_once_witness :
  training_starts fine (flags "training" "train") sample1 /\
  images_loaded (fst (main fine (flags "training" "train"))) = ["train/sample1.jpg"] /\
  work_done (fst (main fine (flags "training" "train"))) = [Run; Step] /\
  reports (fst (main fine (flags "training" "train"))) = [] /\
  snd (main fine (flags "training" "train")) = Some tt.
Proof.
  split; [apply training_starts_train|].
  destruct (trainer_visits_each_key_once fine (flags "training" "train") sample1
              (training_starts_train _))
    as (_ & _ & _ & Hruns).
  - reflexivity.
  - destruct Hruns as (Himages & _ & _ & Hone & Hquiet).
    + intros j i Hj. exists [1 # 2]. repeat split; reflexivity.
    + split; [rewrite Himages; reflexivity|].
      split; [apply Hone; reflexivity|].
      split; apply Hquiet; intros j Hj; reflexivity.
Defined.

(** Of the four candidates, the faint one is below the score threshold
    and the lower dog overlaps the higher one. *)
Lemma printed_detections_are_filtered_witness :
  printed_dets (fst (main fine (flags "detector" "train"))) = [dog_high; cat] /\
  (3 # 10 < iou dog_high dog_low)%Q /\
  Forall (fun d => ¬ (det_score d < 8 # 10)%Q)
    (printed_dets (fst (main fine (flags "detector" "train")))).
Proof.
  split; [reflexivity|]. split; [reflexivity|].
  apply (printed_detections_are_filtered fine (flags "detector" "train") iou raw).
  - exact iou_sym.
  - reflexivity.
Defined.

Lemma unrecognized_mode_is_reported_witness :
  unrecognized fine (flags "foo" "train") /\
  main fine (flags "foo" "train") =
    (building (flags "foo" "train") ++ [Call C_Print; Printf fmt_mode [VStr "foo"]], None).
Proof.
  assert (unrecognized fine (flags "foo" "train")) as Hmode by (split; discriminate).
  split; [exact Hmode|].
  destruct (unrecognized_mode_is_reported fine (flags "foo" "train") Hmode)
    as [Hreported _].
  apply Hreported. reflexivity.
Defined.

(** The property of the flag layer does not hold as it is worded: when
    the cfg file is missing, the run with the mode [foo] reports the
    failed construction and returns; the mode is not reported. *)
Lemma unrecognized_mode_not_reported :
  ¬ reports_unrecognized_mode (world (Some cfg_missing) grey steps_fine)
      (flags "foo" "train").
Proof.
  intros Hclaim.
  assert (unrecognized (world (Some cfg_missing) grey steps_fine) (flags "foo" "train"))
    as Hmode by (split; discriminate).
  apply Hclaim in Hmode. vm_compute in Hmode.
  repeat (apply elem_of_cons in Hmode as [Hmode|Hmode]; [discriminate|]).
  by apply elem_of_nil in Hmode.
Qed.

(** With the cfg file missing, the run is the same for a recognized and
    for an unrecognized mode. *)
Lemma model_is_built_first_witness :
  main (world (Some cfg_missing) grey steps_fine) (flags "detector" "train") =
    (building (flags "detector" "train") ++ [Printf fmt_prepare [VStr cfg_missing]], None) /\
  main (world (Some cfg_missing) grey steps_fine) (flags "foo" "train") =
    (building (flags "foo" "train") ++ [Printf fmt_prepare [VStr cfg_missing]], None).
Proof.
  split.
  - destruct (model_is_built_first (world (Some cfg_missing) grey steps_fine)
                (flags "detector" "train")) as (_ & Hfails & _).
    apply Hfails. reflexivity.
  - destruct (model_is_built_first (world (Some cfg_missing) grey steps_fine)
                (flags "foo" "train")) as (_ & Hfails & _).
    apply Hfails. reflexivity.
Defined.
End ReferenceRuns.

(** ** More facts about the annotation parser *)

Section MoreParserFacts.
Context {float64 float32 : Type}.
Variable W : World float64 float32.

Lemma is_annotation_annotations (fileInfo : FileInfo) (l : list FileInfo) :
  fileInfo ∈ annotations l -> is_annotation fileInfo = true.
Proof. unfold annotations. by intros [? _]%list_elem_of_filter. Qed.

(** The loop passes over the entries that are not annotation files. *)
Lemma parse_files_annotations (dir : string) (filesInfo : list FileInfo)
    (targets : gmap string (list float32)) :
  parse_files W dir filesInfo targets =
  parse_files W dir (annotations filesInfo) targets.
Proof.
  revert targets. induction filesInfo as [|fi rest IH]; intros targets; [done|].
  rewrite annotations_cons, parse_files_cons.
  destruct (is_annotation fi) eqn:Hfi; [|apply IH].
  rewrite parse_files_cons, Hfi.
  destruct (ioutil_ReadFile W _) as [content|e]; [|done].
  destruct (parse_entities W _ _) as [vs|e]; [|done]. apply IH.
Qed.

(** The loop gets through a stretch of the listing whose annotation files
    all read and parse. *)
Lemma parse_files_prefix (dir : string) (before rest : list FileInfo)
    (targets : gmap string (list float32)) :
  (forall fileInfo, fileInfo ∈ annotations before ->
     is_Some (file_floats W dir fileInfo)) ->
  exists targets',
    parse_files W dir (before ++ rest) targets = parse_files W dir rest targets'.
Proof.
  revert targets. induction before as [|fi before IH]; intros targets Hall.
  - by exists targets.
  - rewrite <- app_comm_cons, parse_files_cons. rewrite annotations_cons in Hall.
    destruct (is_annotation fi); [|by apply IH].
    destruct (Hall fi) as [vs Hvs]; [by left|].
    unfold file_floats in Hvs.
    destruct (ioutil_ReadFile W _) as [content|e]; [|done].
    rewrite (parse_entities_ok W _ [] vs) by done.
    apply IH. intros fj Hfj. apply Hall. by right.
Qed.

(** The inner loop returns the error of the first token that is not a
    float. *)
Lemma parse_entities_first_bad (arr : list string) (acc : list float32)
    (good : list string) (tok : string) (rest : list string) (e : error) :
  trimmed arr = good ++ tok :: rest ->
  Forall (fun t => is_Some (float_of_token W t)) good ->
  strconv_ParseFloat W tok 32 = Err e ->
  parse_entities W arr acc = Err e.
Proof.
  revert acc good. induction arr as [|x arr IH]; intros acc good Hcut Hgood Hbad.
  - by destruct good.
  - rewrite trimmed_cons in Hcut. simpl.
    destruct (decide (strings_TrimSpace x = EmptyString)); [by eapply IH|].
    destruct good as [|g good]; simpl in Hcut.
    + injection Hcut as -> _. by rewrite Hbad.
    + injection Hcut as -> Hcut. apply Forall_cons in Hgood as [[v Hv] Hgood].
      apply float_of_token_Some in Hv as (f & -> & _). by eapply IH.
Qed.

(** X1: over a readable directory, [parseFolder] returns a map exactly
    when the listing holds an annotation file (a non-directory entry of
    extension [.txt]) and every annotation file reads and holds valid
    floats only.  It returns either an error and no map, or a map that is
    not empty and no error: never both, never neither, never an empty
    map. *)
Theorem parseFolder_succeeds_iff (dir : string) (filesInfo : list FileInfo) :
  ioutil_ReadDir W dir = Ok filesInfo ->
  ((exists targets, parseFolder W dir = (Some targets, None)) <->
   annotations filesInfo ≠ [] /\
   forall fileInfo, fileInfo ∈ annotations filesInfo ->
     is_Some (file_floats W dir fileInfo)) /\
  ((exists e, parseFolder W dir = (None, Some e)) \/
   (exists targets, parseFolder W dir = (Some targets, None) /\ targets ≠ ∅)).
Proof.
  intros Hdir. split; [split|].
  - intros [targets Hret]. unfold parseFolder in Hret. rewrite Hdir in Hret. split.
    + intros Hnone.
      destruct (parse_files_ok W dir filesInfo ∅) as (targets' & Hfiles & Hlook).
      { rewrite Hnone. intros fi Hfi. by apply elem_of_nil in Hfi. }
      rewrite Hfiles in Hret.
      assert (targets' = ∅) as ->.
      { apply map_eq. intros k. by rewrite Hlook, Hnone. }
      done.
    + intros fi Hfi. destruct (file_floats W dir fi) as [vs|] eqn:Hfloats; [by eexists|].
      destruct (parse_files_err W dir filesInfo ∅ fi Hfi Hfloats) as [e He].
      by rewrite He in Hret.
  - intros [Hsome Hall].
    destruct (parseFolder_ok W dir filesInfo Hdir Hsome Hall) as (targets & Hret & _).
    by exists targets.
  - unfold parseFolder. rewrite Hdir.
    destruct (parse_files W dir filesInfo ∅) as [targets|e]; [|left; by eexists].
    destruct (size targets) eqn:Hsize; simpl; [left; by eexists|].
    right. exists targets. split; [done|]. intros ->. by rewrite map_size_empty in Hsize.
Qed.

(** X2: when the annotation files listed before an annotation file that
    cannot be read all read and parse, [parseFolder] returns the error of
    that read and no map, whatever the listing holds after it. *)
Theorem parseFolder_returns_first_read_error (dir : string)
    (before after : list FileInfo) (fileInfo : FileInfo) (e : error) :
  ioutil_ReadDir W dir = Ok (before ++ fileInfo :: after) ->
  (forall fi, fi ∈ annotations before -> is_Some (file_floats W dir fi)) ->
  is_annotation fileInfo = true ->
  ioutil_ReadFile W (file_path dir (Name fileInfo)) = Err e ->
  parseFolder W dir = (None, Some e).
Proof.
  intros Hdir Hbefore Hfi Hread. unfold parseFolder. rewrite Hdir.
  destruct (parse_files_prefix dir before (fileInfo :: after) ∅ Hbefore) as [targets ->].
  by rewrite parse_files_cons, Hfi, Hread.
Qed.

(** X3: when the annotation files listed before [fileInfo] all read and
    parse, and the tokens of [fileInfo] before [tok] are valid floats,
    [parseFolder] returns the error that [strconv.ParseFloat] gives for
    [tok] and no map: the first failure is the one returned, and nothing
    after it is looked at. *)
Theorem parseFolder_returns_first_token_error (dir : string)
    (before after : list FileInfo) (fileInfo : FileInfo) (content : string)
    (good : list string) (tok : string) (rest : list string) (e : error) :
  ioutil_ReadDir W dir = Ok (before ++ fileInfo :: after) ->
  (forall fi, fi ∈ annotations before -> is_Some (file_floats W dir fi)) ->
  is_annotation fileInfo = true ->
  ioutil_ReadFile W (file_path dir (Name fileInfo)) = Ok content ->
  tokens content = good ++ tok :: rest ->
  Forall (fun t => is_Some (float_of_token W t)) good ->
  strconv_ParseFloat W tok 32 = Err e ->
  parseFolder W dir = (None, Some e).
Proof.
  intros Hdir Hbefore Hfi Hread Hcut Hgood Hbad. unfold parseFolder. rewrite Hdir.
  destruct (parse_files_prefix dir before (fileInfo :: after) ∅ Hbefore) as [targets ->].
  rewrite parse_files_cons, Hfi, Hread.
  by rewrite (parse_entities_first_bad _ [] good tok rest e Hcut Hgood Hbad).
Qed.
End MoreParserFacts.

Section Independence.
Context {float64 float32 : Type}.
Variables W W' : World float64 float32.

Lemma parse_entities_agree (arr : list string) (acc : list float32) :
  (forall s bitSize, strconv_ParseFloat W s bitSize = strconv_ParseFloat W' s bitSize) ->
  (forall x, float32_of W x = float32_of W' x) ->
  parse_entities W arr acc = parse_entities W' arr acc.
Proof.
  intros Hparse Hconv. revert acc.
  induction arr as [|x arr IH]; intros acc; simpl; [done|].
  destruct (decide _); [apply IH|]. rewrite Hparse.
  destruct (strconv_ParseFloat W' _ _) as [f|e]; [|done]. by rewrite Hconv, IH.
Qed.

Lemma parse_files_agree (dir : string) (l : list FileInfo)
    (targets : gmap string (list float32)) :
  (forall s bitSize, strconv_ParseFloat W s bitSize = strconv_ParseFloat W' s bitSize) ->
  (forall x, float32_of W x = float32_of W' x) ->
  (forall fileInfo, fileInfo ∈ annotations l ->
     ioutil_ReadFile W (file_path dir (Name fileInfo)) =
     ioutil_ReadFile W' (file_path dir (Name fileInfo))) ->
  parse_files W dir l targets = parse_files W' dir l targets.
Proof.
  intros Hparse Hconv. revert targets.
  induction l as [|fi l IH]; intros targets Hread; [done|].
  rewrite !parse_files_cons. rewrite annotations_cons in Hread.
  destruct (is_annotation fi); [|by apply IH].
  rewrite (Hread fi) by by left.
  destruct (ioutil_ReadFile W' _) as [content|e]; [|done].
  rewrite (parse_entities_agree _ _ Hparse Hconv).
  destruct (parse_entities W' _ _) as [vs|e]; [|done].
  apply IH. intros fj Hfj. apply Hread. by right.
Qed.

(** X4: the result of [parseFolder] depends on the annotation files of
    the listing only: two file systems whose listings of [dir] hold the
    same annotation entries in the same order, and whose annotation files
    read alike, give the same result, whatever the other entries are and
    whatever the other files hold.  No file but an annotation file is
    read. *)
Theorem parseFolder_reads_annotations_only (dir : string)
    (filesInfo filesInfo' : list FileInfo) :
  ioutil_ReadDir W dir = Ok filesInfo ->
  ioutil_ReadDir W' dir = Ok filesInfo' ->
  annotations filesInfo = annotations filesInfo' ->
  (forall s bitSize, strconv_ParseFloat W s bitSize = strconv_ParseFloat W' s bitSize) ->
  (forall x, float32_of W x = float32_of W' x) ->
  (forall fileInfo, fileInfo ∈ annotations filesInfo ->
     ioutil_ReadFile W (file_path dir (Name fileInfo)) =
     ioutil_ReadFile W' (file_path dir (Name fileInfo))) ->
  parseFolder W dir = parseFolder W' dir.
Proof.
  intros Hdir Hdir' Hanns Hparse Hconv Hread. unfold parseFolder.
  rewrite Hdir, Hdir'.
  rewrite (parse_files_annotations W), (parse_files_annotations W'), <- Hanns.
  rewrite (parse_files_agree dir _ _ Hparse Hconv); [done|].
  intros fi Hfi. apply Hread.
  unfold annotations in *. apply list_elem_of_filter in Hfi as [_ Hfi]. done.
Qed.
End Independence.

(** ** Facts about names, extensions and keys *)

Section Names.

Lemma string_of_list_ascii_app (a b : list ascii) :
  string_of_list_ascii (a ++ b) = string_of_list_ascii a +:+ string_of_list_ascii b.
Proof. induction a as [|c a IH]; [done|]. simpl. by rewrite IH. Qed.

(** [filepath.Ext] returns nothing, or the rest of the path from one of its
    dots on. *)
Lemma Ext_loop_drop (p : list ascii) (k : nat) :
  Ext_loop p k = [] \/ exists i, i < k /\ Ext_loop p k = drop i p.
Proof.
  induction k as [|k IH]; simpl; [by left|].
  destruct (Ascii.eqb _ byte_slash); [by left|].
  destruct (Ascii.eqb _ byte_dot); [right; exists k; split; [lia|done]|].
  destruct IH as [->|(i & Hi & ->)]; [by left|].
  right. exists i. split; [lia|done].
Qed.

(** The extension starts at the last dot, when no separator follows it. *)
Lemma Ext_loop_last_dot (b s tail : list ascii) :
  Forall (fun c => c ≠ byte_dot /\ c ≠ byte_slash) s ->
  Ext_loop (b ++ byte_dot :: s ++ tail) (length b + S (length s)) = byte_dot :: s ++ tail.
Proof.
  revert tail. induction s as [|c s IH] using rev_ind; intros tail Hs.
  - rewrite Nat.add_1_r. simpl Ext_loop.
    rewrite app_nth2 by lia. rewrite Nat.sub_diag. simpl.
    by rewrite drop_app_length.
  - apply Forall_app in Hs as [Hs Hc]. apply Forall_singleton in Hc as [Hdot Hslash].
    rewrite length_app, <- app_assoc. simpl length. simpl app.
    replace (length b + S (length s + 1)) with (S (length b + S (length s))) by lia.
    simpl Ext_loop.
    replace (nth (length b + S (length s)) (b ++ byte_dot :: s ++ c :: tail) "000"%char)
      with c.
    + apply Ascii.eqb_neq in Hdot, Hslash. rewrite Hdot, Hslash. by apply IH.
    + rewrite app_nth2 by lia.
      replace (length b + S (length s) - length b) with (S (length s)) by lia.
      simpl. rewrite app_nth2 by lia. by rewrite Nat.sub_diag.
Qed.

Lemma Ext_txt_iff (path : string) :
  filepath_Ext path = ".txt" <-> exists base, path = base +:+ ".txt".
Proof.
  unfold filepath_Ext. split.
  - intros Hext. apply (f_equal list_ascii_of_string) in Hext.
    rewrite list_ascii_of_string_of_list_ascii in Hext.
    destruct (Ext_loop_drop (list_ascii_of_string path)
                (length (list_ascii_of_string path))) as [Hnil|(i & _ & Hdrop)];
      [by rewrite Hnil in Hext|].
    rewrite Hdrop in Hext.
    exists (string_of_list_ascii (take i (list_ascii_of_string path))).
    rewrite <- (string_of_list_ascii_of_string path) at 1.
    rewrite <- (take_drop i (list_ascii_of_string path)) at 1.
    by rewrite string_of_list_ascii_app, Hext.
  - intros [base ->]. rewrite list_ascii_app, length_app.
    change (list_ascii_of_string ".txt")
      with (byte_dot :: ["t"; "x"; "t"]%char ++ []).
    change (length (byte_dot :: ["t"; "x"; "t"]%char ++ []))
      with (S (length ["t"; "x"; "t"]%char)).
    rewrite Ext_loop_last_dot; [done|].
    repeat constructor; discriminate.
Qed.

Lemma stem_dot_free (name : string) : dot_free (stem name) = true.
Proof.
  unfold dot_free. induction name as [|c name IH]; simpl; [done|].
  destruct (Ascii.eqb c byte_dot) eqn:Hc; simpl; [done|]. by rewrite Hc, IH.
Qed.

Lemma stem_split (name : string) :
  (dot_free name = true /\ stem name = name) \/
  exists rest, name = stem name +:+ String byte_dot rest.
Proof.
  unfold dot_free. induction name as [|c name IH]; simpl; [by left|].
  destruct (Ascii.eqb c byte_dot) eqn:Hc; simpl.
  - right. exists name. apply Ascii.eqb_eq in Hc as ->. done.
  - destruct IH as [[Hfree Hstem]|[rest Hrest]].
    + left. by rewrite Hstem.
    + right. exists rest. by rewrite append_String, <- Hrest.
Qed.

Lemma stem_append_dot (k rest : string) :
  dot_free k = true -> stem (k +:+ String byte_dot rest) = k.
Proof.
  unfold dot_free. induction k as [|c k IH]; simpl; [done|].
  intros [Hc Hk]%andb_true_iff. rewrite ?append_String. simpl.
  apply negb_true_iff in Hc. rewrite Hc. by rewrite IH.
Qed.

Lemma dot_free_append (a b : string) :
  dot_free (a +:+ b) = dot_free a && dot_free b.
Proof. unfold dot_free. by rewrite list_ascii_app, forallb_app. Qed.

(** X5: the entries that [parseFolder] reads are the entries that are
    not directories and whose name ends in [.txt]; the test
    [filepath.Ext(name) != ".txt"] of the loop is a test of the suffix of
    the name. *)
Theorem annotation_iff_txt_suffix (fileInfo : FileInfo) :
  is_annotation fileInfo = true <->
  IsDir fileInfo = false /\ exists base, Name fileInfo = base +:+ ".txt".
Proof.
  unfold is_annotation.
  rewrite negb_true_iff, orb_false_iff, negb_false_iff, String.eqb_eq.
  by rewrite Ext_txt_iff.
Qed.

Lemma annotation_name_split (fileInfo : FileInfo) :
  is_annotation fileInfo = true ->
  exists rest, Name fileInfo = stem (Name fileInfo) +:+ String byte_dot rest.
Proof.
  unfold is_annotation.
  rewrite negb_true_iff, orb_false_iff, negb_false_iff, String.eqb_eq, Ext_txt_iff.
  intros [_ [base Hname]].
  destruct (stem_split (Name fileInfo)) as [[Hfree _]|Hsplit]; [|done].
  rewrite Hname, dot_free_append in Hfree.
  by apply andb_true_iff in Hfree as [_ ?].
Qed.
End Names.

Section Keys.
Context {float64 float32 : Type}.
Variable W : World float64 float32.

(** What a returned map tells of the listing. *)
Lemma parseFolder_Some_inv (dir : string) (filesInfo : list FileInfo)
    (targets : gmap string (list float32)) :
  ioutil_ReadDir W dir = Ok filesInfo ->
  parseFolder W dir = (Some targets, None) ->
  (forall fileInfo, fileInfo ∈ annotations filesInfo ->
     is_Some (file_floats W dir fileInfo)) /\
  forall k, targets !! k = last_keyed k (annotations filesInfo) ≫= file_floats W dir.
Proof.
  intros Hdir Hret.
  assert (forall fileInfo, fileInfo ∈ annotations filesInfo ->
            is_Some (file_floats W dir fileInfo)) as Hall.
  { intros fi Hfi. destruct (file_floats W dir fi) as [vs|] eqn:Hfloats; [by eexists|].
    destruct (parse_files_err W dir filesInfo ∅ fi Hfi Hfloats) as [e He].
    unfold parseFolder in Hret. by rewrite Hdir, He in Hret. }
  split; [done|].
  destruct (parse_files_ok W dir filesInfo ∅ Hall) as (targets' & Hfiles & Hlook).
  unfold parseFolder in Hret. rewrite Hdir, Hfiles in Hret.
  destruct (size targets' =? 0); [done|]. injection Hret as <-.
  intros k. rewrite Hlook. by destruct (last_keyed _ _).
Qed.

(** X6: the keys of the map that [parseFolder] returns are the strings
    without a dot that, followed by a dot, start the name of an annotation
    file: a key never holds a dot, and every annotation file gives its
    name up to the first dot as a key. *)
Theorem keys_are_names_up_to_first_dot (dir : string) (filesInfo : list FileInfo)
    (targets : gmap string (list float32)) :
  ioutil_ReadDir W dir = Ok filesInfo ->
  parseFolder W dir = (Some targets, None) ->
  forall k,
    is_Some (targets !! k) <->
    dot_free k = true /\
    exists fileInfo rest,
      fileInfo ∈ annotations filesInfo /\ Name fileInfo = k +:+ "." +:+ rest.
Proof.
  intros Hdir Hret k.
  destruct (parseFolder_Some_inv dir filesInfo targets Hdir Hret) as [Hall Hlook].
  rewrite Hlook. split.
  - intros [vs Hvs].
    destruct (last_keyed k (annotations filesInfo)) as [fi|] eqn:Hlast; [|done].
    apply last_keyed_Some in Hlast as [Hfi <-].
    split; [apply stem_dot_free|].
    destruct (annotation_name_split fi) as [rest Hrest];
      [by eapply is_annotation_annotations|].
    by exists fi, rest.
  - intros (Hfree & fi & rest & Hfi & Hname).
    assert (stem (Name fi) = k) as <-.
    { rewrite Hname. by apply stem_append_dot. }
    destruct (last_keyed_is_Some _ _ Hfi) as [fj Hfj]. rewrite Hfj. simpl.
    apply Hall. by apply last_keyed_Some in Hfj as [? _].
Qed.
End Keys.

(** ** More facts about a run *)

Section MoreRunFacts.
Context {float64 float32 : Type}.
Variable W : World float64 float32.
Variable fl : Flags.
Implicit Type t : list (@event float32).

Lemma machine_app t1 t2 : machine (t1 ++ t2) = machine t1 ++ machine t2.
Proof. apply omap_app. Qed.

Lemma iterations_printed_app t1 t2 :
  iterations_printed (t1 ++ t2) = iterations_printed t1 ++ iterations_printed t2.
Proof. apply omap_app. Qed.

Lemma step_rates_app t1 t2 : step_rates (t1 ++ t2) = step_rates t1 ++ step_rates t2.
Proof. apply omap_app. Qed.

Lemma detector_calls_app t1 t2 :
  detector_calls (t1 ++ t2) = detector_calls t1 ++ detector_calls t2.
Proof. apply omap_app. Qed.

Lemma training_calls_app t1 t2 :
  training_calls (t1 ++ t2) = training_calls t1 ++ training_calls t2.
Proof. apply omap_app. Qed.

Lemma targets_set_app t1 t2 : targets_set (t1 ++ t2) = targets_set t1 ++ targets_set t2.
Proof. apply omap_app. Qed.

Lemma inputs_bound_app t1 t2 :
  inputs_bound (t1 ++ t2) = inputs_bound t1 ++ inputs_bound t2.
Proof. apply omap_app. Qed.

Lemma fatal_reports_app t1 t2 :
  fatal_reports (t1 ++ t2) = fatal_reports t1 ++ fatal_reports t2.
Proof. unfold fatal_reports, reports. by rewrite omap_app, filter_app. Qed.

(** One pass of the body, whatever the solver: it runs to its end, or it
    ends the run with a report. *)
Lemma train_body_shape (labeledData : gmap string (list float32))
    (i : string) (solver : Q) (iter : nat) :
  (exists pass solver' imgf32,
     train_body W fl labeledData i solver iter = (pass, Some solver') /\
     yologo_GetFloat32Image W (image_of_key fl i) imgHeight imgWidth = Ok imgf32 /\
     machine pass = [Ran; Stepped; WasReset] /\
     iterations_printed pass = [Z.of_nat iter] /\
     length (step_rates pass) = 1 /\
     detector_calls pass = [] /\
     fatal_reports pass = [] /\
     targets_set pass = [index_map labeledData i] /\
     inputs_bound pass = [imgf32]) \/
  (exists pre format e,
     train_body W fl labeledData i solver iter = (pre ++ [Printf format [VStr e]], None) /\
     (machine pre = [] \/ machine pre = [Ran]) /\
     iterations_printed pre = [] /\
     step_rates pre = [] /\
     detector_calls pre = [] /\
     fatal_reports pre = [] /\
     fatal_reports [Printf (float32 := float32) format [VStr e]] = [(format, [VStr e])]).
Proof.
  unfold train_body.
  destruct (yologo_GetFloat32Image W _ _ _) as [imgf32|e] eqn:Himg;
    [|right; eexists [_], _, _; cbn; repeat split; by left]. cbn.
  destruct (model_SetTarget W _ _) as [e|];
    [right; eexists [_; _], _, _; cbn; repeat split; by left|]. cbn.
  destruct (gorgonia_Let W _ _) as [e|];
    [right; eexists [_; _; _; _], _, _; cbn; repeat split; by left|]. cbn.
  destruct (tm_RunAll W _) as [e|];
    [right; eexists [_; _; _; _; _], _, _; cbn; repeat split; by right|]. cbn.
  left. unfold reschedule.
  destruct (iter =? 15), (iter =? 150); cbn;
    destruct (solver_Step W _ _); cbn;
    eexists _, _, imgf32; repeat split; done.
Qed.

(** The loop, whatever the world: whole passes, then the end of the keys or
    a report that ends the run. *)
Lemma train_loop_shape (labeledData : gmap string (list float32))
    (keys : list string) (solver : Q) (iter : nat) :
  exists n tail,
    machine (fst (train_loop W fl labeledData keys solver iter)) =
      concat (replicate n [Ran; Stepped; WasReset]) ++ tail /\
    iterations_printed (fst (train_loop W fl labeledData keys solver iter)) =
      Z.of_nat <$> seq iter n /\
    length (step_rates (fst (train_loop W fl labeledData keys solver iter))) = n /\
    detector_calls (fst (train_loop W fl labeledData keys solver iter)) = [] /\
    ((snd (train_loop W fl labeledData keys solver iter) = Some tt /\
      tail = [] /\
      fatal_reports (fst (train_loop W fl labeledData keys solver iter)) = [] /\
      targets_set (fst (train_loop W fl labeledData keys solver iter)) =
        index_map labeledData <$> keys /\
      Forall2 (fun i imgf32 =>
                 yologo_GetFloat32Image W (image_of_key fl i) imgHeight imgWidth = Ok imgf32)
        keys (inputs_bound (fst (train_loop W fl labeledData keys solver iter)))) \/
     (snd (train_loop W fl labeledData keys solver iter) = None /\
      (tail = [] \/ tail = [Ran]) /\
      exists pre format e,
        fst (train_loop W fl labeledData keys solver iter) =
          pre ++ [Printf format [VStr e]] /\
        fatal_reports (fst (train_loop W fl labeledData keys solver iter)) =
          [(format, [VStr e])])).
Proof.
  revert solver iter. induction keys as [|i keys IH]; intros solver iter.
  - exists 0, []. split; [done|]. split; [done|]. split; [done|]. split; [done|].
    left. split; [done|]. split; [done|]. split; [done|]. split; [done|]. constructor.
  - simpl train_loop.
    destruct (train_body_shape labeledData i solver iter)
      as [(pass & solver' & imgf32 & -> & Himg & Hm & Hi & Hs & Hd & Hf & Ht & Hb)
         |(pre & format & e & -> & Hm & Hi & Hs & Hd & Hf & Hlast)].
    + destruct (IH solver' (S iter)) as (n & tail & Hm' & Hi' & Hs' & Hd' & Hend).
      exists (S n), tail. rewrite bind_run. cbn [fst snd].
      rewrite machine_app, iterations_printed_app, step_rates_app, detector_calls_app,
        fatal_reports_app, targets_set_app, inputs_bound_app, length_app.
      rewrite Hm, Hi, Hs, Hd, Hf, Ht, Hb, Hm', Hi', Hs', Hd'.
      split; [done|]. split; [done|]. split; [done|]. split; [done|].
      destruct Hend as [(Hret & Htail & Hfatal & Htargets & Hbound)
                       |(Hret & Htail & pre & format & e & Hpre & Hfatal)].
      * left. rewrite Hret, Hfatal, Htargets. repeat split; try done.
        by constructor.
      * right. rewrite Hret, Hfatal. repeat split; try done.
        exists (pass ++ pre), format, e. by rewrite Hpre, app_assoc.
    + exists 0, (machine pre). rewrite bind_return. cbn [fst snd].
      rewrite machine_app, iterations_printed_app, step_rates_app, detector_calls_app,
        fatal_reports_app, Hi, Hs, Hd, Hf, Hlast.
      split; [by rewrite app_nil_r|]. split; [done|]. split; [done|]. split; [done|].
      right. repeat split; try done. by exists pre, format, e.
Qed.

(** A run that does not reach the training loop. *)
Lemma main_outside_loop :
  (exists labeledData, training_starts W fl labeledData) \/
  ((machine (fst (main W fl)) = [] \/
    (exists tail,
       machine (fst (main W fl)) = Made :: tail ++ [Closed] /\
       (tail = [] \/ tail = [Ran] \/ tail = [Ran; WasReset]) /\
       exists r, rev (fst (main W fl)) = Call C_Close :: r)) /\
   iterations_printed (fst (main W fl)) = [] /\
   step_rates (fst (main W fl)) = [] /\
   ((snd (main W fl) = Some tt /\ fatal_reports (fst (main W fl)) = []) \/
    (snd (main W fl) = None /\
     exists format args,
       fatal_reports (fst (main W fl)) = [(format, args)] /\
       ((exists r, rev (fst (main W fl)) = Printf format args :: r) \/
        (exists r, rev (fst (main W fl)) = Call C_Close :: Printf format args :: r))))).
Proof.
  unfold training_starts, model_built, main.
  destruct (yologo_NewYoloV3 W _ _ _ _ _) as [e|].
  { right. cbn. split; [by left|]. split; [done|]. split; [done|].
    right. split; [done|]. eexists _, _. split; [reflexivity|]. left. by eexists. }
  cbn.
  destruct (decide (strings_ToLower W (modeStr fl) = "detector")) as [Hd|Hd].
  { right. unfold detector.
    destruct (yologo_GetFloat32Image W _ _ _) as [img|e]; cbn.
    2:{ split; [by left|]. split; [done|]. split; [done|].
        right. split; [done|]. eexists _, _. split; [reflexivity|]. left. by eexists. }
    destruct (gorgonia_Let W _ _) as [e|]; cbn.
    { split; [by left|]. split; [done|]. split; [done|].
      right. split; [done|]. eexists _, _. split; [reflexivity|]. left. by eexists. }
    destruct (tm_RunAll W _) as [e|]; cbn.
    { split; [right; exists [Ran]; split; [done|]; split; [auto|by eexists]|].
      split; [done|]. split; [done|].
      right. split; [done|]. eexists _, _. split; [reflexivity|]. right. by eexists. }
    destruct (model_ProcessOutput W _ _ _) as [dets|e]; cbn.
    2:{ split; [right; exists [Ran; WasReset]; split; [done|]; split; [auto|by eexists]|].
        split; [done|]. split; [done|].
        right. split; [done|]. eexists _, _. split; [reflexivity|]. right. by eexists. }
    rewrite !omap_app, !omap_prints by done. cbn.
    split.
    - right. exists [Ran; WasReset]. split; [done|]. split; [auto|].
      rewrite rev_app_distr. simpl. by eexists.
    - split; [done|]. split; [done|]. by left. }
  destruct (decide (strings_ToLower W (modeStr fl) = "training")) as [Ht|Ht].
  2:{ right. cbn. split; [by left|]. split; [done|]. split; [done|].
      right. split; [done|]. eexists _, _. split; [reflexivity|]. left. by eexists. }
  unfold training.
  destruct (parseFolder_result W (trainingFolder fl)) as [[e He]|[targets He]];
    rewrite He; cbn.
  { right. split; [by left|]. split; [done|]. split; [done|].
    right. split; [done|]. eexists _, _. split; [reflexivity|]. left. by eexists. }
  destruct (model_ActivateTrainingMode W) as [e|]; cbn.
  { right. split; [by left|]. split; [done|]. split; [done|].
    right. split; [done|]. eexists _, _. split; [reflexivity|]. left. by eexists. }
  destruct (gorgonia_Concat W) as [e|]; cbn.
  { right. split; [by left|]. split; [done|]. split; [done|].
    right. split; [done|]. eexists _, _. split; [reflexivity|]. left. by eexists. }
  destruct (gorgonia_Sum W) as [e|]; cbn.
  { right. split; [by left|]. split; [done|]. split; [done|].
    right. split; [done|]. eexists _, _. split; [reflexivity|]. left. by eexists. }
  destruct (gorgonia_Grad W) as [e|]; cbn.
  { right. split; [by left|]. split; [done|]. split; [done|].
    right. split; [done|]. eexists _, _. split; [reflexivity|]. left. by eexists. }
  destruct (gorgonia_Compile W) as [e|]; cbn.
  { right. split; [by left|]. split; [done|]. split; [done|].
    right. split; [done|]. eexists _, _. split; [reflexivity|]. left. by eexists. }
  left. by exists targets.
Qed.
End MoreRunFacts.

Section RunInvariants.
Context {float64 float32 : Type}.
Variable W : World float64 float32.
Variable fl : Flags.
Implicit Type t : list (@event float32).

Lemma last_of_rev {A} (l r : list A) (a : A) : rev l = a :: r -> last l = Some a.
Proof.
  intros Hrev. rewrite <- (rev_involutive l), Hrev. simpl. apply last_snoc.
Qed.

Lemma split_of_rev {A} (l r : list A) (a : A) : rev l = a :: r -> l = rev r ++ [a].
Proof. intros Hrev. by rewrite <- (rev_involutive l), Hrev. Qed.

(** X7: in every run, the tape machine is either never made, or made
    once, then used in rounds of run, optimizer step and reset, one round
    per optimizer step of the run, then possibly run once more, with or
    without a reset, and closed; the deferred [Close] is then the last
    thing the run does. *)
Theorem tape_machine_is_used_in_order :
  machine (fst (main W fl)) = [] \/
  exists tail,
    machine (fst (main W fl)) =
      Made :: concat (replicate (length (step_rates (fst (main W fl))))
                        [Ran; Stepped; WasReset]) ++ tail ++ [Closed] /\
    (tail = [] \/ tail = [Ran] \/ tail = [Ran; WasReset]) /\
    last (fst (main W fl)) = Some (Call C_Close).
Proof.
  destruct (main_outside_loop W fl) as [[labeledData Hstarts]|[Hmachine (_ & Hsteps & _)]].
  - right. rewrite (main_training W fl labeledData Hstarts). cbn [fst snd].
    destruct (train_loop_shape W fl labeledData (range_keys W labeledData) rate_initial 0)
      as (n & tail & Hm & _ & Hn & _ & Hend).
    exists tail. rewrite !machine_app, !step_rates_app, !length_app, Hm, Hn. simpl.
    rewrite Nat.add_0_r. split; [by rewrite <- app_assoc|].
    split; [|by rewrite app_comm_cons, last_snoc].
    destruct Hend as [(_ & -> & _)|(_ & [->| ->] & _)]; auto.
  - destruct Hmachine as [Hnil|(tail & Hm & Htail & r & Hrev)]; [by left|].
    right. exists tail. rewrite Hsteps. split; [done|]. split; [done|].
    by eapply last_of_rev.
Qed.

(** X8: every run either returns at the end of [main] having reported no
    failure but those of optimizer steps, or returns early having reported
    exactly one other failure; that report is then the last event of the
    run, but for the deferred [Close] of the tape machine. *)
Theorem fatal_report_ends_run :
  (snd (main W fl) = Some tt /\ fatal_reports (fst (main W fl)) = []) \/
  (snd (main W fl) = None /\
   exists pre format args closing,
     fst (main W fl) = pre ++ Printf format args :: closing /\
     (closing = [] \/ closing = [Call C_Close]) /\
     fatal_reports (fst (main W fl)) = [(format, args)]).
Proof.
  destruct (main_outside_loop W fl) as [[labeledData Hstarts]|(_ & _ & _ & Hend)].
  - rewrite (main_training W fl labeledData Hstarts). cbn [fst snd].
    destruct (train_loop_shape W fl labeledData (range_keys W labeledData) rate_initial 0)
      as (n & tail & _ & _ & _ & _ & Hend).
    rewrite !fatal_reports_app.
    destruct Hend as [(Hret & _ & Hfatal & _)|(Hret & _ & pre & format & e & Hpre & Hfatal)].
    + left. by rewrite Hret, Hfatal.
    + right. rewrite Hret, Hfatal. split; [done|].
      exists (training_prelude fl ++ pre), format, [VStr e], [Call C_Close].
      rewrite Hpre. split; [by rewrite <- !app_assoc|]. split; [by right|done].
  - destruct Hend as [Hok|(Hret & format & args & Hfatal & Hlast)]; [by left|].
    right. split; [done|].
    destruct Hlast as [[r Hrev]|[r Hrev]].
    + exists (rev r), format, args, []. split; [by apply split_of_rev|].
      split; [by left|done].
    + exists (rev r), format, args, [Call C_Close]. split; [|split; [by right|done]].
      apply split_of_rev in Hrev. rewrite Hrev. simpl. by rewrite <- app_assoc.
Qed.

(** X9: the iterations announced as done are numbered 0, 1, 2, ... in
    order, and there are as many as optimizer steps taken: [iter] grows by
    one per completed iteration, also when the step fails. *)
Theorem iterations_are_numbered :
  iterations_printed (fst (main W fl)) =
    Z.of_nat <$> seq 0 (length (step_rates (fst (main W fl)))).
Proof.
  destruct (main_outside_loop W fl) as [[labeledData Hstarts]|(_ & Hi & Hs & _)].
  - rewrite (main_training W fl labeledData Hstarts). cbn [fst snd].
    destruct (train_loop_shape W fl labeledData (range_keys W labeledData) rate_initial 0)
      as (n & tail & _ & Hi & Hs & _).
    rewrite !iterations_printed_app, !step_rates_app, !length_app, Hi, Hs. simpl.
    by rewrite app_nil_r, Nat.add_0_r.
  - by rewrite Hi, Hs.
Qed.

(** X10: in a training run that reaches the loop and returns at its end,
    where the range statement yields each key of the annotation map once,
    the targets set on the model are, in the order of the keys, the values
    of the map at these keys (the key is always present, so that no zero
    value is ever set), and the images bound to the input are, in the same
    order, the images loaded from the files of these keys. *)
Theorem samples_pair_image_and_target (labeledData : gmap string (list float32)) :
  training_starts W fl labeledData ->
  range_keys W labeledData ≡ₚ elements (dom labeledData) ->
  snd (main W fl) = Some tt ->
  Forall2 (fun i target => labeledData !! i = Some target)
    (range_keys W labeledData) (targets_set (fst (main W fl))) /\
  Forall2 (fun i imgf32 =>
             yologo_GetFloat32Image W (image_of_key fl i) imgHeight imgWidth = Ok imgf32)
    (range_keys W labeledData) (inputs_bound (fst (main W fl))).
Proof.
  intros Hstarts Hperm. rewrite (main_training W fl labeledData Hstarts). cbn [fst snd].
  destruct (train_loop_shape W fl labeledData (range_keys W labeledData) rate_initial 0)
    as (n & tail & _ & _ & _ & _ & Hend).
  intros Hret.
  destruct Hend as [(_ & _ & _ & Htargets & Hbound)|(Hnone & _)]; [|congruence].
  rewrite !targets_set_app, !inputs_bound_app, Htargets. simpl. rewrite !app_nil_r.
  split; [|done].
  apply Forall2_fmap_r.
  apply (Forall_Forall2_diag
           (fun i j => labeledData !! i = Some (index_map labeledData j))).
  apply Forall_forall. intros i Hi.
  rewrite Hperm in Hi. apply elem_of_elements, elem_of_dom in Hi as [v Hv].
  unfold index_map. by rewrite Hv.
Qed.

(** X11: a run that makes a call of the training path (activation of the
    training mode, solver, outputs, costs, gradients, compilation, target,
    step) has the mode [training] in lower case; a run that calls
    [ProcessOutput] has the mode [detector] in lower case; no run does
    both. *)
Theorem modes_are_exclusive :
  (training_calls (fst (main W fl)) ≠ [] ->
   strings_ToLower W (modeStr fl) = "training") /\
  (detector_calls (fst (main W fl)) ≠ [] ->
   strings_ToLower W (modeStr fl) = "detector") /\
  (training_calls (fst (main W fl)) = [] \/ detector_calls (fst (main W fl)) = []).
Proof.
  assert (strings_ToLower W (modeStr fl) ≠ "training" ->
          training_calls (fst (main W fl)) = []) as Hnot_training.
  { intros Hmode. unfold main.
    destruct (yologo_NewYoloV3 W _ _ _ _ _) as [e|]; [done|]. cbn.
    destruct (decide (strings_ToLower W (modeStr fl) = "detector")) as [Hd|Hd].
    - unfold detector.
      destruct (yologo_GetFloat32Image W _ _ _) as [img|e]; [|done]. cbn.
      destruct (gorgonia_Let W _ _) as [e|]; [done|]. cbn.
      destruct (tm_RunAll W _) as [e|]; [done|]. cbn.
      destruct (model_ProcessOutput W _ _ _) as [dets|e]; [|done]. cbn.
      by rewrite !omap_app, !omap_prints.
    - by destruct (decide (strings_ToLower W (modeStr fl) = "training")). }
  assert (strings_ToLower W (modeStr fl) ≠ "detector" ->
          detector_calls (fst (main W fl)) = []) as Hnot_detector.
  { intros Hmode. unfold main.
    destruct (yologo_NewYoloV3 W _ _ _ _ _) as [e|]; [done|]. cbn.
    destruct (decide (strings_ToLower W (modeStr fl) = "detector")) as [Hd|Hd]; [done|].
    destruct (decide (strings_ToLower W (modeStr fl) = "training")) as [Ht|Ht]; [|done].
    unfold training.
    destruct (parseFolder_result W (trainingFolder fl)) as [[e He]|[targets He]];
      rewrite He; [done|]. cbn.
    destruct (model_ActivateTrainingMode W) as [e|]; [done|]. cbn.
    destruct (gorgonia_Concat W) as [e|]; [done|]. cbn.
    destruct (gorgonia_Sum W) as [e|]; [done|]. cbn.
    destruct (gorgonia_Grad W) as [e|]; [done|]. cbn.
    destruct (gorgonia_Compile W) as [e|]; [done|]. cbn.
    destruct (train_loop_shape W fl targets (range_keys W targets) rate_initial 0)
      as (n & tail & _ & _ & _ & Hd' & _).
    match goal with
    | |- omap _ (fst ?L ++ ?c) = [] => change (detector_calls (fst L ++ c) = [])
    end.
    by rewrite detector_calls_app, Hd'. }
  split; [|split].
  - intros Hcalls.
    destruct (decide (strings_ToLower W (modeStr fl) = "training")); [done|].
    destruct Hcalls. by apply Hnot_training.
  - intros Hcalls.
    destruct (decide (strings_ToLower W (modeStr fl) = "detector")); [done|].
    destruct Hcalls. by apply Hnot_detector.
  - destruct (decide (strings_ToLower W (modeStr fl) = "training")) as [Ht|Ht].
    + right. apply Hnot_detector. by rewrite Ht.
    + left. by apply Hnot_training.
Qed.
End RunInvariants.

Section ModeCase.
Context {float64 float32 : Type}.
Variable W : World float64 float32.

(** X12: the case of an ASCII mode string does not matter when the mode
    is recognized: two mode strings with the same lower-case form, which
    is [detector] or [training], give the same run.  (The mode that is not
    recognized is printed as it was given.) *)
Theorem mode_case_is_ignored (fl : Flags) (mode1 mode2 : string) :
  is_ascii_string mode1 = true ->
  is_ascii_string mode2 = true ->
  lower_bytes mode1 = lower_bytes mode2 ->
  lower_bytes mode1 = "detector" \/ lower_bytes mode1 = "training" ->
  main W (with_mode fl mode1) = main W (with_mode fl mode2).
Proof.
  intros Hascii1 Hascii2 Hsame Hknown. unfold main, strings_ToLower. simpl modeStr.
  rewrite Hascii1, Hascii2, <- Hsame.
  destruct (yologo_NewYoloV3 W _ _ _ _ _) as [e|]; [done|]. cbn.
  destruct (decide (lower_bytes mode1 = "detector")); [done|].
  destruct (decide (lower_bytes mode1 = "training")) as [Ht|Ht]; [done|].
  by destruct Hknown.
Qed.
End ModeCase.

Section Tokens.

Lemma Split_pieces (P : ascii -> Prop) (s : string) (sep : ascii) :
  Forall P (list_ascii_of_string s) ->
  Forall (fun piece => Forall (fun c => P c /\ c ≠ sep) (list_ascii_of_string piece))
    (strings_Split s sep).
Proof.
  induction s as [|c s IH]; intros Hs; simpl.
  - by repeat constructor.
  - simpl in Hs. apply Forall_cons in Hs as [Hc Hs]. specialize (IH Hs).
    destruct (Ascii.eqb c sep) eqn:Hsep.
    + by constructor.
    + apply Ascii.eqb_neq in Hsep.
      destruct (strings_Split s sep) as [|h t].
      * by repeat constructor.
      * apply Forall_cons in IH as [Hh Ht]. constructor; [|done].
        simpl. by constructor.
Qed.

Lemma ReplaceAll_bytes (s : string) (old new : ascii) :
  old ≠ new ->
  Forall (fun c => c ≠ old) (list_ascii_of_string (strings_ReplaceAll s old new)).
Proof.
  intros Hneq. induction s as [|c s IH]; simpl; [done|].
  constructor; [|done].
  destruct (Ascii.eqb c old) eqn:Hc; [by intros ->|by apply Ascii.eqb_neq].
Qed.

Lemma TrimFunc_bytes (P : ascii -> Prop) (p : list ascii) (f : Z -> bool) :
  Forall P p -> Forall P (TrimFunc p f).
Proof.
  intros Hp. unfold TrimFunc, TrimRightFunc, TrimLeftFunc.
  apply Forall_take. destruct (_ =? _)%Z; [done|]. by apply Forall_drop.
Qed.

Lemma no_separator_Forall (e : list ascii) :
  Forall (fun c => c ≠ byte_nl /\ c ≠ byte_sp) e -> no_separator e = true.
Proof.
  intros He. unfold no_separator. apply forallb_forall. intros c Hc.
  rewrite Forall_forall in He. destruct (He c) as [Hnl Hsp]; [by apply list_elem_of_In|].
  apply Ascii.eqb_neq in Hnl, Hsp. by rewrite Hnl, Hsp.
Qed.

(** X13: no token that the parser hands to [strconv.ParseFloat] is empty
    or holds a space or a newline, whatever the content of the file. *)
Theorem tokens_are_never_blank_or_cut (content : string) :
  Forall (fun tok => tok ≠ EmptyString /\ uncut tok = true) (tokens content).
Proof.
  unfold tokens, trimmed, file_entities.
  apply Forall_forall. intros tok [Hsome Htok]%list_elem_of_filter.
  split; [done|].
  apply list_elem_of_fmap in Htok as (piece & -> & Hpiece).
  pose proof (Split_pieces (fun c => c ≠ byte_nl) _ byte_sp
                (ReplaceAll_bytes content byte_nl byte_sp ltac:(done))) as Hpieces.
  rewrite Forall_forall in Hpieces. specialize (Hpieces piece Hpiece).
  unfold uncut, strings_TrimSpace. rewrite list_ascii_of_string_of_list_ascii.
  by apply no_separator_Forall, TrimFunc_bytes.
Qed.
End Tokens.

Section Causes.
Context {float64 float32 : Type}.
Variable W : World float64 float32.

Lemma parse_entities_Err_inv (arr : list string) (acc : list float32) (e : error) :
  parse_entities W arr acc = Err e ->
  exists tok, tok ∈ trimmed arr /\ strconv_ParseFloat W tok 32 = Err e.
Proof.
  revert acc. induction arr as [|x arr IH]; intros acc; simpl; [done|].
  rewrite trimmed_cons.
  destruct (decide (strings_TrimSpace x = EmptyString)); [apply IH|].
  destruct (strconv_ParseFloat W _ _) as [f|e'] eqn:Hparse.
  - intros (tok & Htok & Hbad)%IH. exists tok. split; [by right|done].
  - intros [= ->]. eexists. split; [by left|done].
Qed.

Lemma parse_files_Err_inv (dir : string) (filesInfo : list FileInfo)
    (targets : gmap string (list float32)) (e : error) :
  parse_files W dir filesInfo targets = Err e ->
  exists fileInfo, fileInfo ∈ annotations filesInfo /\
    (ioutil_ReadFile W (file_path dir (Name fileInfo)) = Err e \/
     exists content tok,
       ioutil_ReadFile W (file_path dir (Name fileInfo)) = Ok content /\
       tok ∈ tokens content /\ strconv_ParseFloat W tok 32 = Err e).
Proof.
  revert targets. induction filesInfo as [|fi rest IH]; intros targets; [done|].
  rewrite parse_files_cons, annotations_cons.
  destruct (is_annotation fi); [|apply IH].
  destruct (ioutil_ReadFile W _) as [content|e'] eqn:Hread.
  - destruct (parse_entities W _ _) as [vs|e'] eqn:Hparse.
    + intros (fj & Hfj & Hcause)%IH. exists fj. split; [by right|done].
    + intros [= ->]. exists fi. split; [by left|]. right.
      apply parse_entities_Err_inv in Hparse as (tok & Htok & Hbad).
      by exists content, tok.
  - intros [= ->]. exists fi. split; [by left|]. by left.
Qed.

(** X14: an error that [parseFolder] returns is the error of reading the
    directory, or the error of reading an annotation file of the listing,
    or the error of [strconv.ParseFloat] on a token of an annotation file,
    or the message that the folder holds no annotation file, returned when
    the listing holds none. *)
Theorem parseFolder_error_has_a_cause (dir : string) (e : error) :
  parseFolder W dir = (None, Some e) ->
  ioutil_ReadDir W dir = Err e \/
  exists filesInfo,
    ioutil_ReadDir W dir = Ok filesInfo /\
    ((annotations filesInfo = [] /\ e = no_annotations dir) \/
     exists fileInfo, fileInfo ∈ annotations filesInfo /\
       (ioutil_ReadFile W (file_path dir (Name fileInfo)) = Err e \/
        exists content tok,
          ioutil_ReadFile W (file_path dir (Name fileInfo)) = Ok content /\
          tok ∈ tokens content /\ strconv_ParseFloat W tok 32 = Err e)).
Proof.
  intros Hret.
  destruct (ioutil_ReadDir W dir) as [filesInfo|e'] eqn:Hdir.
  - right. exists filesInfo. split; [done|].
    destruct (parse_files W dir filesInfo ∅) as [targets|e'] eqn:Hfiles.
    + left.
      destruct (decide (annotations filesInfo = [])) as [Hnone|Hsome].
      * split; [done|]. unfold parseFolder in Hret. rewrite Hdir, Hfiles in Hret.
        destruct (size targets =? 0); congruence.
      * destruct (parseFolder_ok W dir filesInfo Hdir Hsome) as (targets' & Hok & _).
        { intros fi Hfi.
          destruct (file_floats W dir fi) as [vs|] eqn:Hfloats; [by eexists|].
          destruct (parse_files_err W dir filesInfo ∅ fi Hfi Hfloats) as [e' He'].
          congruence. }
        congruence.
    + right. unfold parseFolder in Hret. rewrite Hdir, Hfiles in Hret.
      injection Hret as ->. by eapply parse_files_Err_inv.
  - left. unfold parseFolder in Hret. rewrite Hdir in Hret. congruence.
Qed.
End Causes.

(** ** The scenes at work *)

Section SceneRuns.
Import Reference Scenes.

Lemma training_starts_scene (run : nat -> option error)
    (step : Q -> nat -> option error) :
  training_starts (Scenes.world ReadFile run step) (flags "training" "pair") pair.
Proof. repeat split; vm_compute; reflexivity. Qed.

(** The file [late/b.txt] holds the token [x1]: the folder gives no map. *)
Lemma parseFolder_succeeds_iff_witness :
  ioutil_ReadDir plain_world "late" = Ok [file "a.txt"; file "b.txt"] /\
  file_floats plain_world "late" (file "b.txt") = None /\
  ~ exists targets, parseFolder plain_world "late" = (Some targets, None).
Proof.
  split; [reflexivity|]. split; [reflexivity|]. intros Hmap.
  destruct (parseFolder_succeeds_iff plain_world "late"
              [file "a.txt"; file "b.txt"] eq_refl) as [[Hall _] _].
  destruct (Hall Hmap) as [_ Hfloats].
  destruct (Hfloats (file "b.txt")) as [vs Hvs]; [by right; left|].
  discriminate Hvs.
Defined.

(** [locked/b.txt] cannot be read: its error is returned, and the token
    [oops] of [locked/c.txt], listed after it, is never met. *)
Lemma parseFolder_returns_first_read_error_witness :
  is_annotation (file "b.txt") = true /\
  ioutil_ReadFile plain_world "locked/b.txt" = Err "open locked/b.txt: permission denied" /\
  parseFolder plain_world "locked" =
    (None, Some "open locked/b.txt: permission denied").
Proof.
  split; [reflexivity|]. split; [reflexivity|].
  apply (parseFolder_returns_first_read_error plain_world "locked"
           [file "a.txt"] [file "c.txt"] (file "b.txt")).
  - reflexivity.
  - intros fi Hfi. change (annotations [file "a.txt"]) with [file "a.txt"] in Hfi.
    apply elem_of_cons in Hfi as [->|Hfi]; [by eexists|by apply elem_of_nil in Hfi].
  - reflexivity.
  - reflexivity.
Defined.

(** [late/b.txt] holds two tokens that are no floats: the error is that
    of the first, [x1]. *)
Lemma parseFolder_returns_first_token_error_witness :
  tokens "0 0.5 x1 0.25 y2" = ["0"; "0.5"] ++ "x1" :: ["0.25"; "y2"] /\
  parseFolder plain_world "late" =
    (None, Some "strconv.ParseFloat: parsing x1: invalid syntax").
Proof.
  split; [reflexivity|].
  apply (parseFolder_returns_first_token_error plain_world "late"
           [file "a.txt"] [] (file "b.txt") "0 0.5 x1 0.25 y2"
           ["0"; "0.5"] "x1" ["0.25"; "y2"]).
  - reflexivity.
  - intros fi Hfi. change (annotations [file "a.txt"]) with [file "a.txt"] in Hfi.
    apply elem_of_cons in Hfi as [->|Hfi]; [by eexists|by apply elem_of_nil in Hfi].
  - reflexivity.
  - reflexivity.
  - reflexivity.
  - repeat constructor; by eexists.
  - reflexivity.
Defined.

(** In [mixed] the files that are no annotation files read as garbage in
    the second world: the result is the same. *)
Lemma parseFolder_reads_annotations_only_witness :
  ioutil_ReadFile (Scenes.world ReadFile_garbled runs_fine steps_fine) "mixed/README.md" ≠
    ioutil_ReadFile plain_world "mixed/README.md" /\
  parseFolder plain_world "mixed" =
    parseFolder (Scenes.world ReadFile_garbled runs_fine steps_fine) "mixed".
Proof.
  split; [discriminate|].
  apply (parseFolder_reads_annotations_only plain_world
           (Scenes.world ReadFile_garbled runs_fine steps_fine) "mixed"
           [file "README.md"; file "img.v2.txt"; folder "backup.txt"; file "s1.jpg";
            file "s1.txt"; file "s1.txt.bak"]
           [file "README.md"; file "img.v2.txt"; folder "backup.txt"; file "s1.jpg";
            file "s1.txt"; file "s1.txt.bak"]).
  - reflexivity.
  - reflexivity.
  - reflexivity.
  - reflexivity.
  - reflexivity.
  - intros fi Hfi.
    change (annotations _) with [file "img.v2.txt"; file "s1.txt"] in Hfi.
    apply elem_of_cons in Hfi as [->|Hfi]; [reflexivity|].
    apply elem_of_cons in Hfi as [->|Hfi]; [reflexivity|by apply elem_of_nil in Hfi].
Defined.

(** The keys of [mixed] are [img] and [s1]: [img.v2.txt] is cut at its
    first dot, and the directory [backup.txt] gives no key. *)
Lemma keys_are_names_up_to_first_dot_witness :
  parseFolder plain_world "mixed" =
    (Some {["img" := [2 # 1; 1 # 10; 1 # 10; 1 # 5; 1 # 5];
            "s1" := [0 # 1; 1 # 2; 1 # 2; 1 # 4; 1 # 4]]}, None) /\
  forall k,
    is_Some (({["img" := [2 # 1; 1 # 10; 1 # 10; 1 # 5; 1 # 5];
               "s1" := [0 # 1; 1 # 2; 1 # 2; 1 # 4; 1 # 4]]}
              : gmap string (list Q)) !! k) <->
    dot_free k = true /\
    exists fileInfo rest,
      fileInfo ∈ annotations
        [file "README.md"; file "img.v2.txt"; folder "backup.txt"; file "s1.jpg";
         file "s1.txt"; file "s1.txt.bak"] /\
      Name fileInfo = k +:+ "." +:+ rest.
Proof.
  split; [vm_compute; reflexivity|]. intros k.
  apply (keys_are_names_up_to_first_dot plain_world "mixed").
  - reflexivity.
  - vm_compute. reflexivity.
Defined.

(** The two samples of [pair]: each sets the target of its key and binds
    the image loaded for it. *)
Lemma samples_pair_image_and_target_witness :
  training_starts plain_world (flags "training" "pair") pair /\
  snd (main plain_world (flags "training" "pair")) = Some tt /\
  targets_set (fst (main plain_world (flags "training" "pair"))) =
    [[0 # 1; 1 # 2; 1 # 2; 1 # 4; 1 # 4]; [1 # 1; 1 # 2; 1 # 2; 1 # 2; 1 # 2]] /\
  Forall2 (fun i target => pair !! i = Some target)
    (range_keys plain_world pair)
    (targets_set (fst (main plain_world (flags "training" "pair")))) /\
  Forall2 (fun i imgf32 =>
             yologo_GetFloat32Image plain_world
               (image_of_key (flags "training" "pair") i) imgHeight imgWidth = Ok imgf32)
    (range_keys plain_world pair)
    (inputs_bound (fst (main plain_world (flags "training" "pair")))).
Proof.
  assert (training_starts plain_world (flags "training" "pair") pair) as Hstarts
    by (by apply training_starts_scene).
  split; [exact Hstarts|]. split; [vm_compute; reflexivity|].
  split; [vm_compute; reflexivity|].
  apply (samples_pair_image_and_target plain_world (flags "training" "pair") pair Hstarts).
  - reflexivity.
  - vm_compute. reflexivity.
Defined.

(** A run with the mode [Training] makes the calls of the training
    path. *)
Lemma modes_are_exclusive_witness :
  training_calls (fst (main plain_world (flags "Training" "pair"))) ≠ [] /\
  strings_ToLower plain_world "Training" = "training" /\
  detector_calls (fst (main plain_world (flags "Training" "pair"))) = [].
Proof.
  assert (training_calls (fst (main plain_world (flags "Training" "pair"))) ≠ [])
    as Hcalls by (vm_compute; discriminate).
  split; [exact Hcalls|].
  destruct (modes_are_exclusive plain_world (flags "Training" "pair"))
    as (Htraining & _ & [Hnone|Hnone]).
  - by destruct Hcalls.
  - split; [exact (Htraining Hcalls)|exact Hnone].
Defined.

(** [Detector] and [DETECTOR] give the same run. *)
Lemma mode_case_is_ignored_witness :
  "Detector" ≠ "DETECTOR" /\
  main plain_world (with_mode (flags "detector" "pair") "Detector") =
  main plain_world (with_mode (flags "detector" "pair") "DETECTOR").
Proof.
  split; [discriminate|].
  apply (mode_case_is_ignored plain_world (flags "detector" "pair")
           "Detector" "DETECTOR"); [reflexivity..|by left].
Defined.

(** The error of [locked] is that of reading an annotation file. *)
Lemma parseFolder_error_has_a_cause_witness :
  parseFolder plain_world "locked" =
    (None, Some "open locked/b.txt: permission denied") /\
  (ioutil_ReadDir plain_world "locked" = Err "open locked/b.txt: permission denied" \/
   exists filesInfo,
     ioutil_ReadDir plain_world "locked" = Ok filesInfo /\
     ((annotations filesInfo = [] /\
       "open locked/b.txt: permission denied" = no_annotations "locked") \/
      exists fileInfo, fileInfo ∈ annotations filesInfo /\
        (ioutil_ReadFile plain_world (file_path "locked" (Name fileInfo)) =
           Err "open locked/b.txt: permission denied" \/
         exists content tok,
           ioutil_ReadFile plain_world (file_path "locked" (Name fileInfo)) = Ok content /\
           tok ∈ tokens content /\
           strconv_ParseFloat plain_world tok 32 =
             Err "open locked/b.txt: permission denied"))).
Proof.
  split; [reflexivity|].
  apply (parseFolder_error_has_a_cause plain_world "locked"). reflexivity.
Defined.
End SceneRuns.
